(** * SmLL interpreter: a shallow embedding of the TypeScript sources

    The development follows the repository's files:
    - [JS]: the part of the JavaScript runtime the interpreter leans on
      (numbers as IEEE-754 binary64, [typeof], [===], [Number], [Boolean],
      [Math.floor], [%]).
    - [AbstractSyntaxTree]: the node model shared by [lexer-parser.ts] and
      by the second parser file, whose nodes carry source blocks, as
      run-time objects.
    - [Interpreter]: [extend], [execute], [evaluate], [elaborate], [run] of
      [interpreter.ts].
    - [LexerParser], [LexerParserBlocks]: the node constructors and the
      grammar actions of the two parser files, as node-building
      functions. *)

From Stdlib Require Import List String Ascii ZArith Bool.
From Stdlib Require Import PrimFloat FloatOps SpecFloat Uint63.
Import ListNotations.

Set Warnings "-register-all".

Local Open Scope string_scope.
Local Open Scope Z_scope.

(** ** JavaScript numbers and conversions *)

Module JS.

(** A JS number is a binary64 float: Rocq's primitive [float]. *)
Definition number := float.

Definition NaN : number := PrimFloat.nan.

(** The number whose value is the integer [z], for [0 <= z < 2^63]
    (exact below [2^53]). *)
Definition of_Z (z : Z) : number := PrimFloat.of_uint63 (Uint63.of_Z z).

(** [a === b] on two numbers: IEEE equality ([NaN] differs from itself,
    [+0] equals [-0]). *)
Definition number_strict_eq (a b : number) : bool := PrimFloat.eqb a b.

(** [Math.floor(x)]: the largest integral number not above [x]; NaN,
    the infinities, zeros and integral numbers are returned unchanged. *)
Definition Math_floor (x : number) : number :=
  match Prim2SF x with
  | S754_finite s m e =>
      if 0 <=? e then x
      else
        let q := Z.shiftr (Zpos m) (- e) in
        let integral := Z.shiftl q (- e) =? Zpos m in
        if integral then x
        else if s then PrimFloat.opp (of_Z (q + 1))
        else of_Z q
  | _ => x
  end.

(** [n % d], ECMAScript's Number::remainder: the sign follows the dividend
    and the result is exact. *)
Definition remainder (n d : number) : number :=
  match Prim2SF n, Prim2SF d with
  | S754_nan, _ => NaN
  | _, S754_nan => NaN
  | S754_infinity _, _ => NaN
  | _, S754_infinity _ => n
  | _, S754_zero _ => NaN
  | S754_zero _, _ => n
  | S754_finite sn mn en, S754_finite _ md ed =>
      let e0 := Z.min en ed in
      let N := Z.shiftl (Zpos mn) (en - e0) in
      let D := Z.shiftl (Zpos md) (ed - e0) in
      match Z.rem N D with
      | Zpos r => SF2Prim (S754_finite sn r e0)
      | _ => if sn then PrimFloat.neg_zero else PrimFloat.zero
      end
  end.

(** What a data property of a node can hold: the token text ([value],
    [identificator]), a type tag, a kind number, or nothing. *)
Inductive primitive : Type :=
| p_undefined
| p_boolean (b : bool)
| p_number (x : number)
| p_string (s : string).

(** The two built-ins the interpreter calls whose result the language
    standard leaves to the host or defines by a grammar of its own:
    [Math.pow] and the string-to-number conversion behind [Number(s)]. *)
Class Host : Type := {
  Math_pow : number -> number -> number;
  StringToNumber : string -> number
}.

(** [Number(v)] *)
Definition Number `{Host} (v : primitive) : number :=
  match v with
  | p_undefined => NaN
  | p_boolean b => if b then PrimFloat.one else PrimFloat.zero
  | p_number x => x
  | p_string s => StringToNumber s
  end.

(** [Boolean(v)] *)
Definition Boolean (v : primitive) : bool :=
  match v with
  | p_undefined => false
  | p_boolean b => b
  | p_number x => negb (PrimFloat.is_zero x || PrimFloat.is_nan x)
  | p_string s => negb (String.eqb s "")
  end.

(** [a === b] as a class, one instance per type of key. *)
Class StrictEq (K : Type) : Type := strict_eq : K -> K -> bool.

End JS.

(** ** The AST model ([namespace AbstractSyntaxTree]) *)

Module AbstractSyntaxTree.

Module CommandKind.
(** [IF_] stands for the member [IF], a reserved word here. *)
Inductive t : Set :=
| NIL | DECLARATION_COMMAND | COMMAND_COMMAND | ASSIGNMENT
| IF_ | IF_ELSE | WHILE | PRINT.
Definition code (k : t) : Z :=
  match k with
  | NIL => 0 | DECLARATION_COMMAND => 1 | COMMAND_COMMAND => 2
  | ASSIGNMENT => 3 | IF_ => 4 | IF_ELSE => 5 | WHILE => 6 | PRINT => 7
  end.
End CommandKind.

Module ExpressionKind.
Inductive t : Set :=
| VALUE | IDENTIFICATOR | UNARY_OPERATOR | BINARY_OPERATOR | PARENTHESIS.
Definition code (k : t) : Z :=
  match k with
  | VALUE => 9 | IDENTIFICATOR => 10 | UNARY_OPERATOR => 11
  | BINARY_OPERATOR => 12 | PARENTHESIS => 13
  end.
End ExpressionKind.

Module DeclarationKind.
Inductive t : Set :=
| NIL | CONSTANT | VARIABLE | DECLARATION_DECLARATION.
Definition code (k : t) : Z :=
  match k with
  | NIL => 15 | CONSTANT => 16 | VARIABLE => 17
  | DECLARATION_DECLARATION => 18
  end.
End DeclarationKind.

Module ValueKind.
Inductive t : Set := BOOLEAN | NUMBER.
Definition code (k : t) : Z :=
  match k with BOOLEAN => 20 | NUMBER => 21 end.
End ValueKind.

Module TypeKind.
Inductive t : Set := BOOLEAN | NUMBER.
Definition code (k : t) : Z :=
  match k with BOOLEAN => 22 | NUMBER => 23 end.
End TypeKind.

Module OperatorKind.
Inductive t : Set := UNARY_OPERATOR | BINARY_OPERATOR.
Definition code (k : t) : Z :=
  match k with UNARY_OPERATOR => 24 | BINARY_OPERATOR => 25 end.
End OperatorKind.

(** [type Kind]: the union of the six enums.  Their members are numbers
    and no two members share one ([Kind_code_inj]), so a [switch] on
    [kind] tells the members of the union apart. *)
Inductive Kind : Set :=
| Command (k : CommandKind.t)
| Expression (k : ExpressionKind.t)
| Declaration (k : DeclarationKind.t)
| ValueK (k : ValueKind.t)
| TypeK (k : TypeKind.t)
| Operator (k : OperatorKind.t).

Definition Kind_code (k : Kind) : Z :=
  match k with
  | Command k => CommandKind.code k
  | Expression k => ExpressionKind.code k
  | Declaration k => DeclarationKind.code k
  | ValueK k => ValueKind.code k
  | TypeK k => TypeKind.code k
  | Operator k => OperatorKind.code k
  end.

(** [type Value = boolean | number] *)
Inductive Value : Type :=
| boolean (b : bool)
| number (x : JS.number).

(** [typeof value] *)
Definition typeof (value : Value) : string :=
  match value with
  | boolean _ => "boolean"
  | number _ => "number"
  end.

(** [class Block] of the parser file with source positions. *)
Record Block : Set := new_Block {
  firstLine : Z;
  lastLine : Z;
  firstColumn : Z;
  lastColumn : Z
}.

Definition union (this block : Block) : Block :=
  new_Block (firstLine this) (lastLine block)
            (firstColumn this) (lastColumn block).

(** [value1 === value2] on two values: never true across the two types. *)
#[export] Instance Value_strict_eq : JS.StrictEq Value :=
  fun value1 value2 =>
    match value1, value2 with
    | boolean a, boolean b => Bool.eqb a b
    | number x, number y => JS.number_strict_eq x y
    | _, _ => false
    end.

(** What sits in a [children] array or in a grammar action's [$n] at run
    time.  The arrays are typed [Node[]], yet the operator productions
    have no action and hand over the token text, and an index past the
    end reads [undefined].  An object carries its identity [ref] (two
    [new] never give the same one), its [kind] ([None] when the
    constructor received none), its [children], its [block] and its
    other data properties by name. *)
Inductive Node : Type :=
| undefined
| text (yytext : string)
| object (ref : nat) (kind : option Kind) (children : list Node)
         (block : option Block) (own : list (string * JS.primitive)).

(** [node.name] for a data property other than [kind], [children] and
    [block], on an object or a string: a name the object does not have
    reads [undefined]. *)
Definition get (node : Node) (name : string) : JS.primitive :=
  match node with
  | object _ _ _ _ own =>
      match find (fun p => String.eqb (fst p) name) own with
      | Some p => snd p
      | None => JS.p_undefined
      end
  | _ => JS.p_undefined
  end.

(** [children[i]] *)
Definition index (children : list Node) (i : nat) : Node :=
  nth i children undefined.

(** [a === b] on what a [children] array holds: objects by identity,
    strings by content. *)
#[export] Instance Node_strict_eq : JS.StrictEq Node :=
  fun a b =>
    match a, b with
    | undefined, undefined => true
    | text s, text t => String.eqb s t
    | object r _ _ _ _, object r' _ _ _ _ => Nat.eqb r r'
    | _, _ => false
    end.

End AbstractSyntaxTree.

Module AST := AbstractSyntaxTree.

(** ** The interpreter ([interpreter.ts]) *)

Module Interpreter.
Import AST.

Inductive StaticErrorType : Set :=
| UNDEFINED_IDENTIFICATOR
| CONSTANT_REASSIGNMENT
| WRONG_TYPE
| UNKNOWN_DECLARATION.

Inductive DynamicErrorType : Set :=
| DIVISION_BY_ZERO
| UNKNOWN_OPERATOR
| UNKNOWN_COMMAND
| UNKNOWN_EXPRESSION.

(** [type InterpreterErrorType = StaticErrorType | DynamicErrorType] *)
Definition InterpreterErrorType : Set := (StaticErrorType + DynamicErrorType)%type.

(** What a [throw] can carry here: the two subclasses of
    [InterpreterError] (the [errorType] is kept, the message text is not),
    the string ['undefined'] that [RHO_0] and [SIGMA_0] throw, and the
    [TypeError] of the runtime on a property read of [undefined]. *)
Inductive Thrown : Set :=
| StaticError (errorType : StaticErrorType)
| DynamicError (errorType : DynamicErrorType)
| thrown_undefined
| TypeError.

(** How a call ends: with a value or with a [throw]. *)
Inductive Completion (A : Type) : Type :=
| Return (a : A)
| Throw (e : Thrown).
Arguments Return {A} a.
Arguments Throw {A} e.

Definition bind {A B : Type} (c : Completion A) (k : A -> Completion B)
  : Completion B :=
  match c with
  | Return a => k a
  | Throw e => Throw e
  end.

(** [type Location = Symbol]: a symbol is the number of the [Symbol()]
    call that made it. *)
Definition Location : Set := nat.

#[export] Instance Location_strict_eq : JS.StrictEq Location := Nat.eqb.

(** [Rho] and [Sigma]: functions that return or throw ['undefined']
    ([None]). *)
Definition Rho : Type := Node -> option (Location + Value).
Definition Sigma : Type := Location -> option Value.

Definition RHO_0 : Rho := fun _ => None.
Definition SIGMA_0 : Sigma := fun _ => None.

(** [isLocation(value)]: [typeof value === 'symbol'] *)
Definition isLocation (value : Location + Value) : bool :=
  match value with
  | inl _ => true
  | inr _ => false
  end.

Definition extend {K V : Type} `{JS.StrictEq K}
  (map : K -> option V) (newKey : K) (newValue : V) : K -> option V :=
  fun key =>
    if JS.strict_eq key newKey then Some newValue else map key.

(** The world outside the three functions: the count of [Symbol()] calls
    so far, what [console.log] has printed and what [console.error] has
    reported, oldest first. *)
Record World : Type := new_World {
  symbols : nat;
  console_log : list Value;
  console_error : list InterpreterErrorType
}.

Definition WORLD_0 : World := new_World 0 [] [].

Definition newLocation (w : World) : Location * World :=
  (symbols w, new_World (S (symbols w)) (console_log w) (console_error w)).

Definition log (value : Value) (w : World) : World :=
  new_World (symbols w) (console_log w ++ [value]) (console_error w).

Definition report (errorType : InterpreterErrorType) (w : World) : World :=
  new_World (symbols w) (console_log w) (console_error w ++ [errorType]).

Definition wrong_type {A : Type} : Completion A := Throw (StaticError WRONG_TYPE).

Section WithHost.
Context `{host : JS.Host}.

(** The [switch (operator)] of the [BINARY_OPERATOR] case, entered with
    both operands evaluated. *)
Definition binary_switch (operator : Node) (value1 value2 : Value)
  : Completion Value :=
  let arithmetic (f : JS.number -> JS.number -> Completion Value) :=
    match value1, value2 with
    | number x, number y => f x y
    | _, _ => wrong_type
    end in
  let guarded (f : JS.number -> JS.number -> JS.number) :=
    arithmetic (fun x y =>
      if negb (JS.number_strict_eq y PrimFloat.zero)
      then Return (number (f x y))
      else Throw (DynamicError DIVISION_BY_ZERO)) in
  let total (f : JS.number -> JS.number -> JS.number) :=
    arithmetic (fun x y => Return (number (f x y))) in
  let relational (f : JS.number -> JS.number -> bool) :=
    arithmetic (fun x y => Return (boolean (f x y))) in
  let logical (f : bool -> bool -> bool) :=
    match value1, value2 with
    | boolean a, boolean b => Return (boolean (f a b))
    | _, _ => wrong_type
    end in
  let same_type (f : Value -> Value -> bool) :=
    if String.eqb (typeof value1) (typeof value2)
    then Return (boolean (f value1 value2))
    else wrong_type in
  match operator with
  | text "+" => total PrimFloat.add
  | text "-" => total PrimFloat.sub
  | text "*" => total PrimFloat.mul
  | text "/" => guarded PrimFloat.div
  | text "==" => same_type JS.strict_eq
  | text "!=" => same_type JS.strict_eq
  | text "<" => relational PrimFloat.ltb
  | text ">" => relational (fun x y => PrimFloat.ltb y x)
  | text "<=" => relational PrimFloat.leb
  | text ">=" => relational (fun x y => PrimFloat.leb y x)
  | text "&&" => logical andb
  | text "||" => logical orb
  | text "//" => guarded (fun x y => JS.Math_floor (PrimFloat.div x y))
  | text "%" => guarded JS.remainder
  | text "^" => total JS.Math_pow
  | _ => Throw (DynamicError UNKNOWN_OPERATOR)
  end.

(** The [switch (operator)] of the [UNARY_OPERATOR] case; [None] when no
    [case] matches and control falls into [case BINARY_OPERATOR]. *)
Definition unary_switch (operator : Node) (value : Value)
  : option (Completion Value) :=
  match operator with
  | text "!" =>
      Some match value with
           | boolean b => Return (boolean (negb b))
           | number _ => wrong_type
           end
  | text "+" =>
      Some match value with
           | number x => Return (number x)
           | boolean _ => wrong_type
           end
  | text "-" =>
      Some match value with
           | number x => Return (number x)
           | boolean _ => wrong_type
           end
  | _ => None
  end.

(** The body of [case IDENTIFICATOR], also reached from [case VALUE] when
    the inner [switch] matches nothing. *)
Definition identificator_case (children : list Node) (rho : Rho) (sigma : Sigma)
  : Completion Value :=
  let identificator := index children 0 in
  match rho identificator with
  | None => Throw (StaticError UNDEFINED_IDENTIFICATOR)
  | Some (inl location) =>
      match sigma location with
      | Some value => Return value
      | None => Throw thrown_undefined
      end
  | Some (inr value) => Return value
  end.

(** [evaluate(expression, rho, sigma)].  A child that is not there is
    [undefined], and [evaluate(undefined, ...)] ends in the [TypeError] of
    reading [expression.kind]; the recursive calls are written under a
    match on [children] with that result in the empty branch. *)
Fixpoint evaluate (expression : Node) (rho : Rho) (sigma : Sigma)
  {struct expression} : Completion Value :=
  match expression with
  | undefined => Throw TypeError
  | text _ => Throw (DynamicError UNKNOWN_EXPRESSION)
  | object _ kind children _ _ =>
      let binary_case :=
        match children with
        | [] => Throw TypeError
        | operand1 :: rest =>
            bind (evaluate operand1 rho sigma) (fun value1 =>
            match rest with
            | operator :: operand2 :: _ =>
                bind (evaluate operand2 rho sigma) (fun value2 =>
                binary_switch operator value1 value2)
            | _ => Throw TypeError
            end)
        end in
      match kind with
      | Some (Expression ExpressionKind.VALUE) =>
          match index children 0 with
          | undefined => Throw TypeError
          | object _ (Some (ValueK ValueKind.NUMBER)) _ _ _ as valueNode =>
              Return (number (JS.Number (get valueNode "token")))
          | object _ (Some (ValueK ValueKind.BOOLEAN)) _ _ _ as valueNode =>
              Return (boolean (JS.Boolean (get valueNode "token")))
          | _ => identificator_case children rho sigma
          end
      | Some (Expression ExpressionKind.IDENTIFICATOR) =>
          identificator_case children rho sigma
      | Some (Expression ExpressionKind.UNARY_OPERATOR) =>
          let operator := index children 0 in
          bind match children with
               | _ :: operand :: _ => evaluate operand rho sigma
               | _ => Throw TypeError
               end (fun value =>
          match unary_switch operator value with
          | Some completion => completion
          | None => binary_case
          end)
      | Some (Expression ExpressionKind.BINARY_OPERATOR) => binary_case
      | Some (Expression ExpressionKind.PARENTHESIS) =>
          match children with
          | inner :: _ => evaluate inner rho sigma
          | [] => Throw TypeError
          end
      | _ => Throw (DynamicError UNKNOWN_EXPRESSION)
      end
  end.

(** [elaborate(declaration, rho, sigma)]; the record [{ rho, sigma }] is a
    pair. *)
Fixpoint elaborate (declaration : Node) (rho : Rho) (sigma : Sigma) (w : World)
  {struct declaration} : Completion (Rho * Sigma) * World :=
  match declaration with
  | undefined => (Throw TypeError, w)
  | text _ => (Throw (StaticError UNKNOWN_DECLARATION), w)
  | object _ kind children _ _ =>
      match kind with
      | Some (Declaration DeclarationKind.NIL) => (Return (rho, sigma), w)
      | Some (Declaration DeclarationKind.VARIABLE) =>
          let identificator := index children 0 in
          let expression := index children 1 in
          let (location, w1) := newLocation w in
          match evaluate expression rho sigma with
          | Return value =>
              (Return (extend rho identificator (inl location),
                       extend sigma location value), w1)
          | Throw e => (Throw e, w1)
          end
      | Some (Declaration DeclarationKind.CONSTANT) =>
          let identificator := index children 0 in
          let expression := index children 1 in
          match evaluate expression rho sigma with
          | Return value =>
              (Return (extend rho identificator (inr value), sigma), w)
          | Throw e => (Throw e, w)
          end
      | Some (Declaration DeclarationKind.DECLARATION_DECLARATION) =>
          match children with
          | [] => (Throw TypeError, w)
          | declaration1 :: rest =>
              match elaborate declaration1 rho sigma w with
              | (Return (rho1, sigma1), w1) =>
                  match rest with
                  | declaration2 :: _ => elaborate declaration2 rho1 sigma1 w1
                  | [] => (Throw TypeError, w1)
                  end
              | (Throw e, w1) => (Throw e, w1)
              end
          end
      | _ => (Throw (StaticError UNKNOWN_DECLARATION), w)
      end
  end.

(** [execute(command, rho, sigma)].  The function recurses on the same
    [WHILE] node, so the embedding counts the depth of nested calls:
    [fuel] bounds it, and [None] says the bound was reached before the call
    ended. *)
Fixpoint execute (fuel : nat) (command : Node) (rho : Rho) (sigma : Sigma)
  (w : World) {struct fuel} : option (Completion Sigma) * World :=
  match fuel with
  | O => (None, w)
  | S fuel =>
      match command with
      | undefined => (Some (Throw TypeError), w)
      | text _ => (Some (Throw (DynamicError UNKNOWN_COMMAND)), w)
      | object _ kind children _ _ =>
          let conditional (otherwise : Value -> option (Completion Sigma) * World) :=
            match evaluate (index children 0) rho sigma with
            | Return value => otherwise value
            | Throw e => (Some (Throw e), w)
            end in
          match kind with
          | Some (Command CommandKind.NIL) => (Some (Return sigma), w)
          | Some (Command CommandKind.DECLARATION_COMMAND) =>
              let declaration := index children 0 in
              let command1 := index children 1 in
              match elaborate declaration rho sigma w with
              | (Return (rho1, sigma1), w1) => execute fuel command1 rho1 sigma1 w1
              | (Throw e, w1) => (Some (Throw e), w1)
              end
          | Some (Command CommandKind.COMMAND_COMMAND) =>
              let command1 := index children 0 in
              let command2 := index children 1 in
              match execute fuel command1 rho sigma w with
              | (Some (Return sigma1), w1) => execute fuel command2 rho sigma1 w1
              | stopped => stopped
              end
          | Some (Command CommandKind.ASSIGNMENT) =>
              let identificator := index children 0 in
              let expression := index children 1 in
              match rho identificator with
              | None => (Some (Throw (StaticError UNDEFINED_IDENTIFICATOR)), w)
              | Some (inl location) =>
                  match evaluate expression rho sigma with
                  | Return value => (Some (Return (extend sigma location value)), w)
                  | Throw e => (Some (Throw e), w)
                  end
              | Some (inr _) => (Some (Throw (StaticError CONSTANT_REASSIGNMENT)), w)
              end
          | Some (Command CommandKind.IF_) =>
              let command1 := index children 1 in
              conditional (fun value =>
                match value with
                | boolean true => execute fuel command1 rho sigma w
                | boolean false => (Some (Return sigma), w)
                | number _ => (Some wrong_type, w)
                end)
          | Some (Command CommandKind.IF_ELSE) =>
              let command1 := index children 1 in
              let command2 := index children 2 in
              conditional (fun value =>
                match value with
                | boolean true => execute fuel command1 rho sigma w
                | boolean false => execute fuel command2 rho sigma w
                | number _ => (Some wrong_type, w)
                end)
          | Some (Command CommandKind.WHILE) =>
              let command1 := index children 1 in
              conditional (fun value =>
                match value with
                | boolean true =>
                    match execute fuel command1 rho sigma w with
                    | (Some (Return sigma1), w1) => execute fuel command rho sigma1 w1
                    | stopped => stopped
                    end
                | boolean false => (Some (Return sigma), w)
                | number _ => (Some wrong_type, w)
                end)
          | Some (Command CommandKind.PRINT) =>
              let expression := index children 0 in
              match evaluate expression rho sigma with
              | Return value => (Some (Return sigma), log value w)
              | Throw e => (Some (Throw e), w)
              end
          | _ => (Some (Throw (DynamicError UNKNOWN_COMMAND)), w)
          end
      end
  end.

(** [run(program)]: an [InterpreterError] is caught and reported, anything
    else thrown goes on to the caller. *)
Definition run (fuel : nat) (program : Node) : option (Completion unit) * World :=
  match execute fuel program RHO_0 SIGMA_0 WORLD_0 with
  | (Some (Return _), w) => (Some (Return tt), w)
  | (Some (Throw (StaticError errorType)), w) =>
      (Some (Return tt), report (inl errorType) w)
  | (Some (Throw (DynamicError errorType)), w) =>
      (Some (Return tt), report (inr errorType) w)
  | (Some (Throw e), w) => (Some (Throw e), w)
  | (None, w) => (None, w)
  end.

End WithHost.
End Interpreter.

(** ** The grammar actions of [lexer-parser.ts]

    Each action is a function of the [$n] it reads and of the identity of
    every object it makes with [new].  A [$n] past the end of its
    production is a parameter of the action. *)

Module LexerParser.
Import AST.

Definition CommandNode (ref : nat) (children : list Node) (kind : CommandKind.t) : Node :=
  object ref (Some (Command kind)) children None [].

Definition DeclarationNode (ref : nat) (children : list Node) (kind : DeclarationKind.t) : Node :=
  object ref (Some (Declaration kind)) children None [].

Definition ExpressionNode (ref : nat) (children : list Node) (kind : ExpressionKind.t) : Node :=
  object ref (Some (Expression kind)) children None [].

(** [constructor(value, type, kind)] *)
Definition ValueNode (ref : nat) (value type : JS.primitive) (kind : option ValueKind.t) : Node :=
  object ref (option_map ValueK kind) [] None [("value", value); ("type", type)].

Definition IdentificatorNode (ref : nat) (identificator : string) : Node :=
  object ref (Some (Expression ExpressionKind.IDENTIFICATOR)) [] None
         [("identificator", JS.p_string identificator)].

Definition TypeNode (ref : nat) (kind : TypeKind.t) : Node :=
  object ref (Some (TypeK kind)) [] None [].

(** [command: declaration command_separator command] *)
Definition command_DECLARATION_COMMAND (ref : nat) (s1 s3 : Node) : Node :=
  CommandNode ref [s1; s3] CommandKind.DECLARATION_COMMAND.

(** [command: command command_separator command] *)
Definition command_COMMAND_COMMAND (ref : nat) (s1 s3 : Node) : Node :=
  CommandNode ref [s1; s3] CommandKind.COMMAND_COMMAND.

Definition single_command_NIL (ref : nat) : Node :=
  CommandNode ref [] CommandKind.NIL.

(** [identificator = expression] *)
Definition single_command_ASSIGNMENT (ref : nat) (s1 s3 : Node) : Node :=
  CommandNode ref [s1; s3] CommandKind.ASSIGNMENT.

(** [PRINT expression] *)
Definition single_command_PRINT (ref : nat) (s2 : Node) : Node :=
  CommandNode ref [s2] CommandKind.PRINT.

(** [FOR declaration , expression , single_command DO command_body]: eight
    symbols; the action reads [$2], [$4], [$6], [$8] and [$11]. *)
Definition single_command_FOR (ref ref1 ref2 ref3 : nat) (s2 s4 s6 s8 s11 : Node) : Node :=
  CommandNode ref
    [s2;
     CommandNode ref1
       [s4;
        CommandNode ref2
          [s11; CommandNode ref3 [s6; s8] CommandKind.ASSIGNMENT]
          CommandKind.COMMAND_COMMAND]
       CommandKind.WHILE]
    CommandKind.DECLARATION_COMMAND.

Definition declaration_NIL (ref : nat) : Node :=
  DeclarationNode ref [] DeclarationKind.NIL.

(** [LET : type identificator = expression] *)
Definition declaration_LET (ref : nat) (s3 s4 s6 : Node) : Node :=
  DeclarationNode ref [s3; s4; s6] DeclarationKind.VARIABLE.

(** [CONST : type identificator = expression] *)
Definition declaration_CONST (ref : nat) (s3 s4 s6 : Node) : Node :=
  DeclarationNode ref [s3; s4; s6] DeclarationKind.CONSTANT.

Definition declaration_DECLARATION_DECLARATION (ref : nat) (s1 s3 : Node) : Node :=
  DeclarationNode ref [s1; s3] DeclarationKind.DECLARATION_DECLARATION.

Definition expression_VALUE (ref : nat) (s1 : Node) : Node :=
  ExpressionNode ref [s1] ExpressionKind.VALUE.

Definition expression_IDENTIFICATOR (ref : nat) (s1 : Node) : Node :=
  ExpressionNode ref [s1] ExpressionKind.IDENTIFICATOR.

Definition expression_UNARY_OPERATOR (ref : nat) (s1 s2 : Node) : Node :=
  ExpressionNode ref [s1; s2] ExpressionKind.UNARY_OPERATOR.

Definition expression_BINARY_OPERATOR (ref : nat) (s1 s2 s3 : Node) : Node :=
  ExpressionNode ref [s1; s2; s3] ExpressionKind.BINARY_OPERATOR.

Definition expression_PARENTHESIS (ref : nat) (s2 : Node) : Node :=
  ExpressionNode ref [s2] ExpressionKind.PARENTHESIS.

(** [new yy.AST.ValueNode($1, yy.AST.ValueKind.NUMBER)]: the kind number
    lands in the constructor's [type] and its [kind] is left out. *)
Definition value_NUMBER_VALUE (ref : nat) (s1 : string) : Node :=
  ValueNode ref (JS.p_string s1)
            (JS.p_number (JS.of_Z (ValueKind.code ValueKind.NUMBER))) None.

Definition value_BOOLEAN_VALUE (ref : nat) (s1 : string) : Node :=
  ValueNode ref (JS.p_string s1)
            (JS.p_number (JS.of_Z (ValueKind.code ValueKind.BOOLEAN))) None.

Definition identificator_IDENTIFICATOR (ref : nat) (s1 : string) : Node :=
  IdentificatorNode ref s1.

Definition type_NUMBER_TYPE (ref : nat) : Node := TypeNode ref TypeKind.NUMBER.
Definition type_BOOLEAN_TYPE (ref : nat) : Node := TypeNode ref TypeKind.BOOLEAN.

End LexerParser.

(** ** The grammar actions of the parser file whose nodes carry a [Block]

    The second parser file of the repository: the constructors take a
    trailing [block], which an action may leave out. *)

Module LexerParserBlocks.
Import AST.
Import Interpreter.

Definition CommandNode (ref : nat) (children : list Node) (kind : CommandKind.t)
  (block : option Block) : Node :=
  object ref (Some (Command kind)) children block [].

Definition DeclarationNode (ref : nat) (children : list Node) (kind : DeclarationKind.t)
  (block : option Block) : Node :=
  object ref (Some (Declaration kind)) children block [].

Definition ExpressionNode (ref : nat) (children : list Node) (kind : ExpressionKind.t)
  (block : option Block) : Node :=
  object ref (Some (Expression kind)) children block [].

Definition VALUE_KIND_TO_TYPE (kind : ValueKind.t) : string :=
  match kind with
  | ValueKind.BOOLEAN => "bool"
  | ValueKind.NUMBER => "num"
  end.

(** [constructor(value, kind, block)] *)
Definition ValueNode (ref : nat) (value : JS.primitive) (kind : ValueKind.t)
  (block : option Block) : Node :=
  object ref (Some (ValueK kind)) [] block
         [("value", value); ("type", JS.p_string (VALUE_KIND_TO_TYPE kind))].

Definition TypeNode (ref : nat) (kind : TypeKind.t) (block : option Block) : Node :=
  object ref (Some (TypeK kind)) [] block [].

(** [validate()]: the pattern [[a-zA-Z_][a-zA-Z0-9_]*] is not anchored, so
    [match] finds it as soon as one character is a letter or [_]. *)
Definition validate (identificator : string) : bool :=
  existsb (fun c =>
             let n := nat_of_ascii c in
             ((65 <=? n) && (n <=? 90) || (97 <=? n) && (n <=? 122) || (n =? 95))%nat)
          (list_ascii_of_string identificator).

(** [new IdentificatorNode(identificator, block)], for an [identificator]
    that passes [validate] (the text of an [IDENTIFICATOR] token does). *)
Definition IdentificatorNode (ref : nat) (identificator : string)
  (block : option Block) : Node :=
  object ref (Some (Expression ExpressionKind.IDENTIFICATOR)) [] block
         [("identificator", JS.p_string identificator)].

(** [$n.block] *)
Definition block_of (node : Node) : option Block :=
  match node with
  | object _ _ _ block _ => block
  | _ => None
  end.

(** [$1.block.union($3.block)]: either block missing is a [TypeError]. *)
Definition union_of_blocks (s1 s3 : Node) : Completion Block :=
  match block_of s1, block_of s3 with
  | Some b1, Some b3 => Return (union b1 b3)
  | _, _ => Throw TypeError
  end.

(** [command: declaration command_separator command] *)
Definition command_DECLARATION_COMMAND (ref : nat) (s1 s3 : Node) : Completion Node :=
  bind (union_of_blocks s1 s3) (fun block =>
  Return (CommandNode ref [s1; s3] CommandKind.DECLARATION_COMMAND (Some block))).

(** [command: command command_separator command] *)
Definition command_COMMAND_COMMAND (ref : nat) (s1 s3 : Node) : Completion Node :=
  bind (union_of_blocks s1 s3) (fun block =>
  Return (CommandNode ref [s1; s3] CommandKind.COMMAND_COMMAND (Some block))).

(** [identificator = expression] *)
Definition single_command_ASSIGNMENT (ref : nat) (s1 s3 : Node) : Node :=
  CommandNode ref [s1; s3] CommandKind.ASSIGNMENT None.

(** [IF expression THEN command_body ELSE command_body] *)
Definition single_command_IF_ELSE (ref : nat) (s2 s4 s6 : Node) : Node :=
  CommandNode ref [s2; s4; s6] CommandKind.IF_ELSE None.

(** [IF expression THEN command_body] *)
Definition single_command_IF (ref : nat) (s2 s4 : Node) : Node :=
  CommandNode ref [s2; s4] CommandKind.IF_ None.

(** [WHILE expression DO command_body] *)
Definition single_command_WHILE (ref : nat) (s2 s4 : Node) : Node :=
  CommandNode ref [s2; s4] CommandKind.WHILE None.

(** [PRINT expression] *)
Definition single_command_PRINT (ref : nat) (s2 : Node) : Node :=
  CommandNode ref [s2] CommandKind.PRINT None.

(** [FOR ( declaration , expression , single_command ) DO command_body]:
    [$3] the declaration, [$5] the condition, [$7] the step, [$10] the
    body. *)
Definition single_command_FOR (ref ref1 ref2 : nat) (s3 s5 s7 s10 : Node) : Node :=
  CommandNode ref
    [s3;
     CommandNode ref1
       [s5; CommandNode ref2 [s10; s7] CommandKind.COMMAND_COMMAND None]
       CommandKind.WHILE None]
    CommandKind.DECLARATION_COMMAND None.

Definition declaration_NIL (ref : nat) : Node :=
  DeclarationNode ref [] DeclarationKind.NIL None.

(** [LET identificator : type = expression] *)
Definition declaration_LET (ref : nat) (s2 s4 s6 : Node) : Node :=
  DeclarationNode ref [s2; s4; s6] DeclarationKind.VARIABLE None.

(** [CONST identificator : type = expression] *)
Definition declaration_CONST (ref : nat) (s2 s4 s6 : Node) : Node :=
  DeclarationNode ref [s2; s4; s6] DeclarationKind.CONSTANT None.

Definition declaration_DECLARATION_DECLARATION (ref : nat) (s1 s3 : Node) : Node :=
  DeclarationNode ref [s1; s3] DeclarationKind.DECLARATION_DECLARATION None.

Definition expression_VALUE (ref : nat) (s1 : Node) : Node :=
  ExpressionNode ref [s1] ExpressionKind.VALUE None.

Definition expression_IDENTIFICATOR (ref : nat) (s1 : Node) : Node :=
  ExpressionNode ref [s1] ExpressionKind.IDENTIFICATOR None.

Definition expression_UNARY_OPERATOR (ref : nat) (s1 s2 : Node) : Node :=
  ExpressionNode ref [s1; s2] ExpressionKind.UNARY_OPERATOR None.

Definition expression_BINARY_OPERATOR (ref : nat) (s1 s2 s3 : Node) : Node :=
  ExpressionNode ref [s1; s2; s3] ExpressionKind.BINARY_OPERATOR None.

Definition expression_PARENTHESIS (ref : nat) (s2 : Node) : Node :=
  ExpressionNode ref [s2] ExpressionKind.PARENTHESIS None.

Definition value_NUMBER_VALUE (ref : nat) (s1 : string) : Node :=
  ValueNode ref (JS.p_string s1) ValueKind.NUMBER None.

Definition value_BOOLEAN_VALUE (ref : nat) (s1 : string) : Node :=
  ValueNode ref (JS.p_string s1) ValueKind.BOOLEAN None.

Definition identificator_IDENTIFICATOR (ref : nat) (s1 : string) : Node :=
  IdentificatorNode ref s1 None.

Definition type_NUMBER_TYPE (ref : nat) : Node := TypeNode ref TypeKind.NUMBER None.
Definition type_BOOLEAN_TYPE (ref : nat) : Node := TypeNode ref TypeKind.BOOLEAN None.

End LexerParserBlocks.

Import AST Interpreter.

(** A terminated call of [execute], whatever depth it needed. *)
Definition Executes `{JS.Host} (command : Node) (rho : Rho) (sigma : Sigma) (w : World)
  (c : Completion Sigma) (w' : World) : Prop :=
  exists fuel, execute fuel command rho sigma w = (Some c, w').

(** ** The expansion of [for] as the specification writes it *)

Module Specification.
Import AST.

(** [DECLARATION_COMMAND(init_decl, WHILE(cond, COMMAND_COMMAND(body, step)))]:
    the three command nodes of the hand-expanded form, each with an
    identity and a block of its own. *)
Definition hand_expanded_for
  (outer loop sequence : nat * option Block) (init_decl cond step body : Node) : Node :=
  object (fst outer) (Some (Command CommandKind.DECLARATION_COMMAND))
    [init_decl;
     object (fst loop) (Some (Command CommandKind.WHILE))
       [cond;
        object (fst sequence) (Some (Command CommandKind.COMMAND_COMMAND))
          [body; step] (snd sequence) []]
       (snd loop) []]
    (snd outer) [].

(** A second copy of a tree, as another parse of the same text would
    build it: object [r] becomes object [f r] with block [g r]; kinds,
    shape, token texts and data properties stay. *)
Fixpoint relabel (f : nat -> nat) (g : nat -> option Block) (node : Node) : Node :=
  match node with
  | object ref kind children _ own =>
      object (f ref) kind (List.map (relabel f g) children) (g ref) own
  | other => other
  end.

(** [rho'] binds the copy of a key as [rho] binds the key. *)
Definition same_bindings (f : nat -> nat) (g : nat -> option Block)
  (rho rho' : Interpreter.Rho) : Prop :=
  forall key, rho' (relabel f g key) = rho key.

End Specification.

(** ** Programs and expressions used below *)

Module Examples.
Import AST Interpreter.

(** A host that answers NaN from both built-ins; the runs below reach
    neither. *)
Definition bare_host : JS.Host :=
  {| JS.Math_pow := fun _ _ => JS.NaN; JS.StringToNumber := fun _ => JS.NaN |}.

Module Old := LexerParser.
Module New := LexerParserBlocks.

(** What a run printed and reported. *)
Definition observed (r : option (Completion unit) * World)
  : option (Completion unit) * list Value * list InterpreterErrorType :=
  (fst r, console_log (snd r), console_error (snd r)).


(** The tree the actions of [lexer-parser.ts] build for a variable [x]
    initialised to [5], then [x = x + 1], then [print x]: one
    [IdentificatorNode] per occurrence of [x]. *)
Definition increment_old : Node :=
  Old.command_DECLARATION_COMMAND 17
    (Old.declaration_LET 4
       (Old.type_NUMBER_TYPE 0)
       (Old.identificator_IDENTIFICATOR 1 "x")
       (Old.expression_VALUE 3 (Old.value_NUMBER_VALUE 2 "5")))
    (Old.command_COMMAND_COMMAND 16
       (Old.single_command_ASSIGNMENT 12
          (Old.identificator_IDENTIFICATOR 5 "x")
          (Old.expression_BINARY_OPERATOR 11
             (Old.expression_IDENTIFICATOR 7 (Old.identificator_IDENTIFICATOR 6 "x"))
             (text "+")
             (Old.expression_VALUE 9 (Old.value_NUMBER_VALUE 8 "1"))))
       (Old.single_command_PRINT 15
          (Old.expression_IDENTIFICATOR 14 (Old.identificator_IDENTIFICATOR 13 "x")))).

(** The same program from the nodes of the parser file with blocks.  Its
    actions build the declaration, the assignment and the print. *)
Definition new_declaration : Node :=
  New.declaration_LET 4
    (New.identificator_IDENTIFICATOR 0 "x")
    (New.type_NUMBER_TYPE 1)
    (New.expression_VALUE 3 (New.value_NUMBER_VALUE 2 "5")).

Definition new_assignment : Node :=
  New.single_command_ASSIGNMENT 12
    (New.identificator_IDENTIFICATOR 5 "x")
    (New.expression_BINARY_OPERATOR 11
       (New.expression_IDENTIFICATOR 7 (New.identificator_IDENTIFICATOR 6 "x"))
       (text "+")
       (New.expression_VALUE 9 (New.value_NUMBER_VALUE 8 "1"))).

Definition new_print : Node :=
  New.single_command_PRINT 15
    (New.expression_IDENTIFICATOR 14 (New.identificator_IDENTIFICATOR 13 "x")).

(** The two sequencing nodes made with the constructor itself, no block
    given. *)
Definition increment_new : Node :=
  New.CommandNode 17
    [new_declaration;
     New.CommandNode 16 [new_assignment; new_print] CommandKind.COMMAND_COMMAND None]
    CommandKind.DECLARATION_COMMAND None.

(** The tree in the shape [elaborate] reads, [VARIABLE] with children
    [[identificator, expression]], and with one node object [x] at all
    four occurrences. *)
Definition x : Node := New.identificator_IDENTIFICATOR 0 "x".

Definition increment_shared : Node :=
  New.CommandNode 17
    [New.DeclarationNode 4
       [x; New.expression_VALUE 3 (New.value_NUMBER_VALUE 2 "5")]
       DeclarationKind.VARIABLE None;
     New.CommandNode 16
       [New.single_command_ASSIGNMENT 12 x
          (New.expression_BINARY_OPERATOR 11
             (New.expression_IDENTIFICATOR 7 x)
             (text "+")
             (New.expression_VALUE 9 (New.value_NUMBER_VALUE 8 "1")));
        New.single_command_PRINT 15 (New.expression_IDENTIFICATOR 14 x)]
       CommandKind.COMMAND_COMMAND None]
    CommandKind.DECLARATION_COMMAND None.

(** Literals as expressions, by the actions of either file. *)
Definition literal_true : Node := New.expression_VALUE 21 (New.value_BOOLEAN_VALUE 20 "true").
Definition literal_false : Node := New.expression_VALUE 23 (New.value_BOOLEAN_VALUE 22 "false").
Definition literal_5 : Node := New.expression_VALUE 25 (New.value_NUMBER_VALUE 24 "5").
Definition old_literal_true : Node := Old.expression_VALUE 21 (Old.value_BOOLEAN_VALUE 20 "true").
Definition old_literal_5 : Node := Old.expression_VALUE 25 (Old.value_NUMBER_VALUE 24 "5").

(** [!false] and [false != (!false)] *)
Definition not_false : Node :=
  New.expression_UNARY_OPERATOR 27 (text "!")
    (New.expression_VALUE 26 (New.value_BOOLEAN_VALUE 28 "false")).

Definition false_differs_from_not_false : Node :=
  New.expression_BINARY_OPERATOR 30 literal_false (text "!=")
    (New.expression_PARENTHESIS 29 not_false).

Definition false_equals_not_false : Node :=
  New.expression_BINARY_OPERATOR 30 literal_false (text "==")
    (New.expression_PARENTHESIS 29 not_false).

(** Two identifier occurrences [a] and [b] and an environment that binds
    them to the constants [7] and [2]. *)
Definition a : Node := New.identificator_IDENTIFICATOR 40 "a".
Definition b : Node := New.identificator_IDENTIFICATOR 41 "b".
Definition seven : JS.number := JS.of_Z 7.
Definition two : JS.number := JS.of_Z 2.
Definition rho_7_2 : Rho :=
  extend (extend RHO_0 a (inr (number seven))) b (inr (number two)).

Definition a_op_b (operator : string) : Node :=
  New.expression_BINARY_OPERATOR 44
    (New.expression_IDENTIFICATOR 42 a) (text operator)
    (New.expression_IDENTIFICATOR 43 b).

(** A variable [x] at location [0] holding [true], and the loop
    [while x do x = false]. *)
Definition rho_x : Rho := extend RHO_0 x (inl 0%nat).
Definition sigma_true : Sigma := extend SIGMA_0 0%nat (boolean true).

Definition x_becomes_false : Node := New.single_command_ASSIGNMENT 51 x literal_false.

Definition while_x : Node :=
  New.single_command_WHILE 52 (New.expression_IDENTIFICATOR 50 x) x_becomes_false.

(** The pieces of a loop [for (x := !false, x, x = false) do print x], the
    declaration in the shape [elaborate] reads. *)
Definition for_declaration : Node :=
  New.DeclarationNode 53 [x; not_false] DeclarationKind.VARIABLE None.
Definition for_condition : Node := New.expression_IDENTIFICATOR 50 x.
Definition for_body : Node := New.single_command_PRINT 55 (New.expression_IDENTIFICATOR 54 x).
Definition for_x : Node :=
  New.single_command_FOR 58 57 56 for_declaration for_condition x_becomes_false for_body.

End Examples.

(** ** Facts about the model *)

Lemma Kind_code_inj (k k' : Kind) : Kind_code k = Kind_code k' -> k = k'.
Proof.
  destruct k as [[]|[]|[]|[]|[]|[]], k' as [[]|[]|[]|[]|[]|[]];
    simpl; intros E; try reflexivity; discriminate E.
Qed.

Lemma Node_strict_eq_refl (n : Node) : JS.strict_eq n n = true.
Proof.
  destruct n as [|s|r k cs b o]; simpl; unfold JS.strict_eq; simpl.
  - reflexivity.
  - apply String.eqb_refl.
  - apply Nat.eqb_refl.
Qed.

Lemma Location_strict_eq_refl (l : Location) : JS.strict_eq l l = true.
Proof. apply Nat.eqb_refl. Qed.

Lemma object_strict_eq (r r' : nat) k k' cs cs' b b' o o' :
  JS.strict_eq (object r k cs b o) (object r' k' cs' b' o') = Nat.eqb r r'.
Proof. reflexivity. Qed.

Section Fuel.
Context `{host : JS.Host}.

(** A call that ended within a depth ends the same way within a larger one. *)
Lemma execute_fuel_S (fuel : nat) :
  forall command rho sigma w c w',
    execute fuel command rho sigma w = (Some c, w') ->
    execute (S fuel) command rho sigma w = (Some c, w').
Proof.
  induction fuel as [|fuel IH]; intros command rho sigma w c w' H.
  - discriminate H.
  - remember (S fuel) as n eqn:En.
    assert (IHn : forall command rho sigma w c w',
               execute fuel command rho sigma w = (Some c, w') ->
               execute n command rho sigma w = (Some c, w'))
      by (subst n; exact IH).
    rewrite En in H. clear En IH.
    destruct command as [|s|ref kind children block own]; [exact H | exact H |].
    destruct kind as [[[]| | | | |]|]; simpl in H |- *; try exact H.
    + destruct (elaborate (index children 0) rho sigma w) as [[[rho1 sigma1]|e] w1];
        [apply IHn; exact H | exact H].
    + destruct (execute fuel (index children 0) rho sigma w) as [[[sigma1|e]|] w1] eqn:E1;
        try discriminate H.
      * rewrite (IHn _ _ _ _ _ _ E1). apply IHn; exact H.
      * rewrite (IHn _ _ _ _ _ _ E1). exact H.
    + destruct (evaluate (index children 0) rho sigma) as [[[]|]|]; try exact H.
      apply IHn; exact H.
    + destruct (evaluate (index children 0) rho sigma) as [[[]|]|]; try exact H;
        apply IHn; exact H.
    + destruct (evaluate (index children 0) rho sigma) as [[[]|]|]; try exact H.
      destruct (execute fuel (index children 1) rho sigma w) as [[[sigma1|e]|] w1] eqn:E1;
        try discriminate H.
      * rewrite (IHn _ _ _ _ _ _ E1). apply IHn; exact H.
      * rewrite (IHn _ _ _ _ _ _ E1). exact H.
Qed.

Lemma execute_fuel_le (fuel fuel' : nat) command rho sigma w c w' :
  (fuel <= fuel')%nat ->
  execute fuel command rho sigma w = (Some c, w') ->
  execute fuel' command rho sigma w = (Some c, w').
Proof.
  induction 1 as [|fuel' _ IH]; intros H; [exact H|].
  apply execute_fuel_S, IH, H.
Qed.

(** Two terminated calls on the same arguments ended the same way. *)
Lemma Executes_deterministic command rho sigma w c1 w1 c2 w2 :
  Executes command rho sigma w c1 w1 ->
  Executes command rho sigma w c2 w2 ->
  c1 = c2 /\ w1 = w2.
Proof.
  intros [f1 H1] [f2 H2].
  apply (execute_fuel_le f1 (Nat.max f1 f2)) in H1; [|apply Nat.le_max_l].
  apply (execute_fuel_le f2 (Nat.max f1 f2)) in H2; [|apply Nat.le_max_r].
  rewrite H1 in H2. injection H2 as -> ->. split; reflexivity.
Qed.

End Fuel.

(** ** [extend] *)

Section Extend.
Context {K V : Type} {eq : JS.StrictEq K}.
Variables (map : K -> option V) (newKey : K) (newValue : V).

Lemma extend_same : JS.strict_eq newKey newKey = true ->
  extend map newKey newValue newKey = Some newValue.
Proof. intros E. unfold extend. rewrite E. reflexivity. Qed.

Lemma extend_other (key : K) : JS.strict_eq key newKey = false ->
  extend map newKey newValue key = map key.
Proof. intros E. unfold extend. rewrite E. reflexivity. Qed.

End Extend.

(** C9. For every map (a [Rho] on nodes, a [Sigma] on locations), key [k]
    and value [v]: [extend(m, k, v)] answers [v] at [k] and what [m]
    answers at every key that is not [=== k].  [extend] assigns to nothing,
    so the map it was given is the same function afterwards: a map [m1]
    captured before it is extended again, even at the same key, still
    answers as it did. *)
Theorem extend_intercepts_delegates_and_keeps_the_old_map :
  (forall (rho : Rho) (k : Node) (v : Location + Value),
      extend rho k v k = Some v
      /\ (forall k', JS.strict_eq k' k = false -> extend rho k v k' = rho k')
      /\ (forall v', let rho1 := extend rho k v in
                     let rho2 := extend rho1 k v' in
                     rho2 k = Some v' /\ rho1 k = Some v))
  /\ (forall (sigma : Sigma) (l : Location) (v : Value),
      extend sigma l v l = Some v
      /\ (forall l', JS.strict_eq l' l = false -> extend sigma l v l' = sigma l')
      /\ (forall v', let sigma1 := extend sigma l v in
                     let sigma2 := extend sigma1 l v' in
                     sigma2 l = Some v' /\ sigma1 l = Some v)).
Proof.
  split.
  - intros rho k v. pose proof (Node_strict_eq_refl k) as R.
    split; [apply extend_same, R|].
    split; [intros k'; apply extend_other|].
    intros v'; split; apply extend_same, R.
  - intros sigma l v. pose proof (Location_strict_eq_refl l) as R.
    split; [apply extend_same, R|].
    split; [intros l'; apply extend_other|].
    intros v'; split; apply extend_same, R.
Qed.

(** ** [execute]: assignment and loop *)

Section Commands.
Context `{host : JS.Host}.

(** C6. [ASSIGNMENT(id, expr)] under [(rho, sigma)]: [id] unbound in [rho]
    throws the static error [UNDEFINED_IDENTIFICATOR]; [id] bound to a
    value throws [CONSTANT_REASSIGNMENT]; [id] bound to a location returns
    [sigma] extended at that location with the value of [expr] under
    [(rho, sigma)]. *)
Theorem execute_ASSIGNMENT (fuel ref : nat) block own
  (identificator expression : Node) (rest : list Node)
  (rho : Rho) (sigma : Sigma) (w : World) :
  let command := object ref (Some (Command CommandKind.ASSIGNMENT))
                        (identificator :: expression :: rest) block own in
  (rho identificator = None ->
   execute (S fuel) command rho sigma w
   = (Some (Throw (StaticError UNDEFINED_IDENTIFICATOR)), w))
  /\ (forall value, rho identificator = Some (inr value) ->
      execute (S fuel) command rho sigma w
      = (Some (Throw (StaticError CONSTANT_REASSIGNMENT)), w))
  /\ (forall location value,
      rho identificator = Some (inl location) ->
      evaluate expression rho sigma = Return value ->
      execute (S fuel) command rho sigma w
      = (Some (Return (extend sigma location value)), w)).
Proof.
  cbn [execute index nth]. repeat split.
  - intros E. rewrite E. reflexivity.
  - intros value E. rewrite E. reflexivity.
  - intros location value E Ev. rewrite E, Ev. reflexivity.
Qed.

(** C7. [WHILE(cond, body)] under [(rho, sigma)]: a [cond] that is not a
    boolean throws [WRONG_TYPE]; a false [cond] returns [sigma] as it is;
    a true [cond] runs [body] to [sigma1] and then the same [WHILE] node
    under [(rho, sigma1)], so the loop ends from [sigma] exactly as it
    ends from [sigma1]. *)
Theorem execute_WHILE (ref : nat) block own
  (condition command1 : Node) (rest : list Node)
  (rho : Rho) (sigma : Sigma) (w : World) :
  let command := object ref (Some (Command CommandKind.WHILE))
                        (condition :: command1 :: rest) block own in
  (forall x fuel, evaluate condition rho sigma = Return (number x) ->
     execute (S fuel) command rho sigma w
     = (Some (Throw (StaticError WRONG_TYPE)), w))
  /\ (forall fuel, evaluate condition rho sigma = Return (boolean false) ->
     execute (S fuel) command rho sigma w = (Some (Return sigma), w))
  /\ (evaluate condition rho sigma = Return (boolean true) ->
      forall sigma1 w1,
        (forall fuel,
            execute fuel command1 rho sigma w = (Some (Return sigma1), w1) ->
            execute (S fuel) command rho sigma w
            = execute fuel command rho sigma1 w1)
        /\ (Executes command1 rho sigma w (Return sigma1) w1 ->
            forall c w2, Executes command rho sigma w c w2
                         <-> Executes command rho sigma1 w1 c w2)).
Proof.
  intros command. split; [|split].
  - intros x fuel E. subst command. cbn [execute index nth]. rewrite E. reflexivity.
  - intros fuel E. subst command. cbn [execute index nth]. rewrite E. reflexivity.
  - intros E sigma1 w1.
    assert (step : forall fuel,
               execute fuel command1 rho sigma w = (Some (Return sigma1), w1) ->
               execute (S fuel) command rho sigma w
               = execute fuel command rho sigma1 w1).
    { intros fuel E1. subst command. cbn [execute index nth].
      rewrite E, E1. reflexivity. }
    split; [exact step|].
    intros [f1 E1] c w2. split.
    + intros [f H].
      destruct f as [|f]; [discriminate H|].
      assert (Eb : execute (Nat.max f f1) command1 rho sigma w
                   = (Some (Return sigma1), w1))
        by (apply (execute_fuel_le f1); [apply Nat.le_max_r | exact E1]).
      exists (Nat.max f f1). rewrite <- (step _ Eb).
      apply (execute_fuel_le (S f)); [|exact H].
      apply le_n_S, Nat.le_max_l.
    + intros [f H].
      exists (S (Nat.max f f1)). rewrite step.
      * apply (execute_fuel_le f); [apply Nat.le_max_l | exact H].
      * apply (execute_fuel_le f1); [apply Nat.le_max_r | exact E1].
Qed.

End Commands.

(** ** [evaluate]: operators *)

Section Expressions.
Context `{host : JS.Host}.

(** Both operands evaluated, a binary node hands them to its [switch]. *)
Lemma evaluate_BINARY_OPERATOR (ref : nat) block own
  (operand1 operator operand2 : Node) (rest : list Node)
  (rho : Rho) (sigma : Sigma) (value1 value2 : Value) :
  evaluate operand1 rho sigma = Return value1 ->
  evaluate operand2 rho sigma = Return value2 ->
  evaluate (object ref (Some (Expression ExpressionKind.BINARY_OPERATOR))
                   (operand1 :: operator :: operand2 :: rest) block own) rho sigma
  = binary_switch operator value1 value2.
Proof.
  intros E1 E2. cbn [evaluate]. rewrite E1. cbn [bind]. rewrite E2. reflexivity.
Qed.

(** C10. Unary [-] on an operand that evaluates to a number [x] returns
    [x] itself, not its negation; on an operand that evaluates to a
    boolean it throws the static error [WRONG_TYPE]. *)
Theorem evaluate_unary_minus (ref : nat) block own
  (operand : Node) (rest : list Node) (rho : Rho) (sigma : Sigma) :
  let expression := object ref (Some (Expression ExpressionKind.UNARY_OPERATOR))
                           (text "-" :: operand :: rest) block own in
  (forall x, evaluate operand rho sigma = Return (number x) ->
             evaluate expression rho sigma = Return (number x))
  /\ (forall b, evaluate operand rho sigma = Return (boolean b) ->
                evaluate expression rho sigma = Throw (StaticError WRONG_TYPE)).
Proof.
  split; intros v E; cbn [evaluate index nth]; rewrite E; reflexivity.
Qed.

(** C8. [/], [//] and [%] on operands that evaluate to numbers [x] and
    [y]: when [y === 0] each throws the dynamic error [DIVISION_BY_ZERO];
    otherwise [/] returns the quotient, [//] its floor and [%] the
    remainder; and the floor of [7 / 2] is [3], the remainder of [7] by
    [2] is [1]. *)
Theorem evaluate_division (ref : nat) block own
  (operand1 operand2 : Node) (rest : list Node)
  (rho : Rho) (sigma : Sigma) (x y : JS.number) :
  let expression (operator : string) :=
    object ref (Some (Expression ExpressionKind.BINARY_OPERATOR))
           (operand1 :: text operator :: operand2 :: rest) block own in
  evaluate operand1 rho sigma = Return (number x) ->
  evaluate operand2 rho sigma = Return (number y) ->
  (JS.number_strict_eq y PrimFloat.zero = true ->
     evaluate (expression "/") rho sigma = Throw (DynamicError DIVISION_BY_ZERO)
     /\ evaluate (expression "//") rho sigma = Throw (DynamicError DIVISION_BY_ZERO)
     /\ evaluate (expression "%") rho sigma = Throw (DynamicError DIVISION_BY_ZERO))
  /\ (JS.number_strict_eq y PrimFloat.zero = false ->
     evaluate (expression "/") rho sigma = Return (number (PrimFloat.div x y))
     /\ evaluate (expression "//") rho sigma
        = Return (number (JS.Math_floor (PrimFloat.div x y)))
     /\ evaluate (expression "%") rho sigma = Return (number (JS.remainder x y)))
  /\ JS.Math_floor (PrimFloat.div (JS.of_Z 7) (JS.of_Z 2)) = JS.of_Z 3
  /\ JS.remainder (JS.of_Z 7) (JS.of_Z 2) = JS.of_Z 1.
Proof.
  intros expression E1 E2. subst expression.
  split; [|split; [|split; vm_compute; reflexivity]];
    intros Z; repeat split;
    rewrite (evaluate_BINARY_OPERATOR _ _ _ _ _ _ _ _ _ _ _ E1 E2);
    cbn [binary_switch]; rewrite Z; reflexivity.
Qed.

End Expressions.

(** ** Environment keys *)

Section Keys.
Context `{host : JS.Host}.
Import LexerParserBlocks.

(** C4. The maps made by [extend] compare keys with [===], and the keys
    the interpreter passes are the node objects at [children[0]].  For two
    [IdentificatorNode] objects [n1] and [n2] of one name but not the same
    object: elaborating a [VARIABLE] or [CONSTANT] whose identifier is [n1]
    binds [n1]; an identifier expression on [n1] then finds the binding;
    the new environment answers at [n2] what the old one did; and where the
    old one had nothing for [n2], an identifier expression and an
    assignment on [n2] both throw [UNDEFINED_IDENTIFICATOR].  The
    declaration nodes are in the shape [elaborate] destructures,
    [[identificator, expression]]. *)
Theorem environment_keys_are_node_objects
  (r1 r2 ref : nat) (name : string) (expression : Node) (value : Value)
  (rho : Rho) (sigma : Sigma) (w : World) :
  let n1 := identificator_IDENTIFICATOR r1 name in
  let n2 := identificator_IDENTIFICATOR r2 name in
  let location := symbols w in
  let rho_let := extend rho n1 (inl location) in
  let sigma_let := extend sigma location value in
  let rho_const := extend rho n1 (inr value) in
  r1 <> r2 ->
  evaluate expression rho sigma = Return value ->
  JS.strict_eq n2 n1 = false
  /\ elaborate (DeclarationNode ref [n1; expression] DeclarationKind.VARIABLE None)
               rho sigma w
     = (Return (rho_let, sigma_let), snd (newLocation w))
  /\ elaborate (DeclarationNode ref [n1; expression] DeclarationKind.CONSTANT None)
               rho sigma w
     = (Return (rho_const, sigma), w)
  /\ evaluate (expression_IDENTIFICATOR ref n1) rho_let sigma_let = Return value
  /\ evaluate (expression_IDENTIFICATOR ref n1) rho_const sigma = Return value
  /\ rho_let n2 = rho n2
  /\ rho_const n2 = rho n2
  /\ (rho n2 = None ->
      evaluate (expression_IDENTIFICATOR ref n2) rho_let sigma_let
      = Throw (StaticError UNDEFINED_IDENTIFICATOR)
      /\ evaluate (expression_IDENTIFICATOR ref n2) rho_const sigma
         = Throw (StaticError UNDEFINED_IDENTIFICATOR)
      /\ forall fuel e w',
          execute (S fuel) (single_command_ASSIGNMENT ref n2 e) rho_let sigma_let w'
          = (Some (Throw (StaticError UNDEFINED_IDENTIFICATOR)), w')
          /\ execute (S fuel) (single_command_ASSIGNMENT ref n2 e) rho_const sigma w'
             = (Some (Throw (StaticError UNDEFINED_IDENTIFICATOR)), w')).
Proof.
  intros n1 n2 location rho_let sigma_let rho_const D E.
  assert (N : JS.strict_eq n2 n1 = false).
  { subst n1 n2. unfold identificator_IDENTIFICATOR, IdentificatorNode.
    rewrite object_strict_eq. apply Nat.eqb_neq. congruence. }
  assert (Llet : rho_let n2 = rho n2) by (apply extend_other, N).
  assert (Lconst : rho_const n2 = rho n2) by (apply extend_other, N).
  assert (Hlet : rho_let n1 = Some (inl location))
    by (apply extend_same, Node_strict_eq_refl).
  assert (Hconst : rho_const n1 = Some (inr value))
    by (apply extend_same, Node_strict_eq_refl).
  assert (Hsigma : sigma_let location = Some value)
    by (apply extend_same, Location_strict_eq_refl).
  split; [exact N|].
  split; [cbn [elaborate DeclarationNode index nth newLocation];
          rewrite E; reflexivity|].
  split; [cbn [elaborate DeclarationNode index nth]; rewrite E; reflexivity|].
  split; [cbn [evaluate expression_IDENTIFICATOR ExpressionNode];
          unfold identificator_case; cbn [index nth];
          rewrite Hlet, Hsigma; reflexivity|].
  split; [cbn [evaluate expression_IDENTIFICATOR ExpressionNode];
          unfold identificator_case; cbn [index nth];
          rewrite Hconst; reflexivity|].
  split; [exact Llet|]. split; [exact Lconst|].
  intros U. rewrite U in Llet, Lconst.
  split; [cbn [evaluate expression_IDENTIFICATOR ExpressionNode];
          unfold identificator_case; cbn [index nth];
          rewrite Llet; reflexivity|].
  split; [cbn [evaluate expression_IDENTIFICATOR ExpressionNode];
          unfold identificator_case; cbn [index nth];
          rewrite Lconst; reflexivity|].
  intros fuel e w'.
  split; cbn [execute single_command_ASSIGNMENT CommandNode index nth];
    [rewrite Llet | rewrite Lconst]; reflexivity.
Qed.

End Keys.

(** ** A copy of a tree runs as the tree *)

Section Relabel.
Context `{host : JS.Host}.
Import Specification.
Variables (f : nat -> nat) (g : nat -> option Block).
Hypothesis f_injective : forall r r', f r = f r' -> r = r'.

(** Induction on a node with the hypothesis for each of its children. *)
Fixpoint Node_children_ind (P : Node -> Prop)
  (at_undefined : P undefined)
  (at_text : forall yytext, P (text yytext))
  (at_object : forall ref kind children block own,
      Forall P children -> P (object ref kind children block own))
  (node : Node) {struct node} : P node :=
  match node with
  | undefined => at_undefined
  | text yytext => at_text yytext
  | object ref kind children block own =>
      at_object ref kind children block own
        ((fix all (l : list Node) : Forall P l :=
            match l with
            | [] => Forall_nil P
            | child :: l' =>
                Forall_cons child
                  (Node_children_ind P at_undefined at_text at_object child)
                  (all l')
            end) children)
  end.

Lemma strict_eq_relabel (key key' : Node) :
  JS.strict_eq (relabel f g key) (relabel f g key') = JS.strict_eq key key'.
Proof.
  destruct key as [|s|r k cs b o], key' as [|s'|r' k' cs' b' o']; try reflexivity.
  simpl. rewrite !object_strict_eq.
  destruct (Nat.eqb r r') eqn:E.
  - apply Nat.eqb_eq in E. subst r'. apply Nat.eqb_refl.
  - apply Nat.eqb_neq. intros E'. apply f_injective in E'.
    apply Nat.eqb_neq in E. contradiction.
Qed.

Lemma index_relabel (children : list Node) (i : nat) :
  index (List.map (relabel f g) children) i = relabel f g (index children i).
Proof. unfold index. apply (map_nth (relabel f g) children undefined). Qed.

Lemma same_bindings_extend (rho rho' : Rho) (key : Node) (v : Location + Value) :
  same_bindings f g rho rho' ->
  same_bindings f g (extend rho key v) (extend rho' (relabel f g key) v).
Proof.
  intros S key'. unfold extend. rewrite strict_eq_relabel, S. reflexivity.
Qed.

Lemma identificator_case_relabel (children : list Node) (rho rho' : Rho) sigma :
  same_bindings f g rho rho' ->
  identificator_case (List.map (relabel f g) children) rho' sigma
  = identificator_case children rho sigma.
Proof.
  intros S. unfold identificator_case. rewrite index_relabel, S. reflexivity.
Qed.

Lemma binary_switch_relabel (operator : Node) value1 value2 :
  binary_switch (relabel f g operator) value1 value2
  = binary_switch operator value1 value2.
Proof. destruct operator; reflexivity. Qed.

Lemma unary_switch_relabel (operator : Node) value :
  unary_switch (relabel f g operator) value = unary_switch operator value.
Proof. destruct operator; reflexivity. Qed.

Lemma evaluate_relabel (expression : Node) :
  forall rho rho' sigma,
    same_bindings f g rho rho' ->
    evaluate (relabel f g expression) rho' sigma = evaluate expression rho sigma.
Proof.
  induction expression as [|s|ref kind children block own IH]
    using Node_children_ind; intros rho rho' sigma S; try reflexivity.
  assert (binary :
    match List.map (relabel f g) children with
    | [] => Throw TypeError
    | operand1 :: rest =>
        bind (evaluate operand1 rho' sigma) (fun value1 =>
        match rest with
        | operator :: operand2 :: _ =>
            bind (evaluate operand2 rho' sigma) (fun value2 =>
            binary_switch operator value1 value2)
        | _ => Throw TypeError
        end)
    end
    = match children with
      | [] => Throw TypeError
      | operand1 :: rest =>
          bind (evaluate operand1 rho sigma) (fun value1 =>
          match rest with
          | operator :: operand2 :: _ =>
              bind (evaluate operand2 rho sigma) (fun value2 =>
              binary_switch operator value1 value2)
          | _ => Throw TypeError
          end)
      end).
  { destruct children as [|operand1 [|operator [|operand2 rest]]]; try reflexivity.
    - cbn [List.map]. inversion IH as [|? ? I1 _]; subst.
      rewrite (I1 rho rho' sigma S). reflexivity.
    - cbn [List.map]. inversion IH as [|? ? I1 _]; subst.
      rewrite (I1 rho rho' sigma S). reflexivity.
    - cbn [List.map]. inversion IH as [|? ? I1 IH1]; subst.
      inversion IH1 as [|? ? _ IH2]; subst. inversion IH2 as [|? ? I3 _]; subst.
      rewrite (I1 rho rho' sigma S), (I3 rho rho' sigma S).
      destruct (evaluate operand1 rho sigma) as [value1|]; [|reflexivity].
      destruct (evaluate operand2 rho sigma) as [value2|]; [|reflexivity].
      cbn [bind]. apply binary_switch_relabel. }
  cbn [relabel evaluate].
  destruct kind as [[|[]| | | |]|]; try reflexivity.
  - (* VALUE *)
    rewrite index_relabel, (identificator_case_relabel _ _ _ _ S).
    destruct (index children 0) as [|s|r [[| | |[]| |]|] cs b o]; reflexivity.
  - (* IDENTIFICATOR *)
    apply identificator_case_relabel, S.
  - (* UNARY_OPERATOR *)
    rewrite index_relabel, binary.
    destruct children as [|operator [|operand rest]]; try reflexivity.
    cbn [List.map]. inversion IH as [|? ? _ IH1]; subst.
    inversion IH1 as [|? ? I2 _]; subst.
    rewrite (I2 rho rho' sigma S).
    destruct (evaluate operand rho sigma) as [value|]; [|reflexivity].
    cbn [bind index nth]. rewrite unary_switch_relabel. reflexivity.
  - (* BINARY_OPERATOR *)
    exact binary.
  - (* PARENTHESIS *)
    destruct children as [|inner rest]; [reflexivity|].
    cbn [List.map]. inversion IH as [|? ? I1 _]; subst.
    apply I1, S.
Qed.

(** The copy of a declaration elaborates to the same store and world and
    to an environment with the same bindings, or throws the same. *)
Definition elaborated_alike
  (r r' : Completion (Rho * Sigma) * World) : Prop :=
  match r, r' with
  | (Return (rho1, sigma1), w1), (Return (rho1', sigma1'), w1') =>
      same_bindings f g rho1 rho1' /\ sigma1' = sigma1 /\ w1' = w1
  | (Throw e, w1), (Throw e', w1') => e' = e /\ w1' = w1
  | _, _ => False
  end.

Lemma elaborate_relabel (declaration : Node) :
  forall rho rho' sigma w,
    same_bindings f g rho rho' ->
    elaborated_alike (elaborate declaration rho sigma w)
                     (elaborate (relabel f g declaration) rho' sigma w).
Proof.
  induction declaration as [|s|ref kind children block own IH]
    using Node_children_ind; intros rho rho' sigma w S;
    try (split; reflexivity).
  cbn [relabel elaborate].
  destruct kind as [[| |[]| | |]|]; try (split; reflexivity).
  - repeat split. exact S.
  - rewrite !index_relabel, (evaluate_relabel _ _ _ _ S).
    destruct (evaluate (index children 1) rho sigma) as [value|e];
      [|split; reflexivity].
    repeat split. apply same_bindings_extend, S.
  - rewrite !index_relabel, (evaluate_relabel _ _ _ _ S).
    cbn [newLocation].
    destruct (evaluate (index children 1) rho sigma) as [value|e];
      [|split; reflexivity].
    repeat split. apply same_bindings_extend, S.
  - destruct children as [|declaration1 rest]; [split; reflexivity|].
    cbn [List.map]. inversion IH as [|? ? I1 IH1]; subst.
    specialize (I1 rho rho' sigma w S). unfold elaborated_alike in I1.
    destruct (elaborate declaration1 rho sigma w) as [[[rho1 sigma1]|e] w1],
             (elaborate (relabel f g declaration1) rho' sigma w)
               as [[[rho1' sigma1']|e'] w1'];
      try contradiction.
    + destruct I1 as (S1 & -> & ->).
      destruct rest as [|declaration2 rest]; [split; reflexivity|].
      cbn [List.map]. inversion IH1 as [|? ? I2 _]; subst.
      apply I2, S1.
    + exact I1.
Qed.

Lemma execute_relabel (fuel : nat) :
  forall command rho rho' sigma w,
    same_bindings f g rho rho' ->
    execute fuel (relabel f g command) rho' sigma w
    = execute fuel command rho sigma w.
Proof.
  induction fuel as [|fuel IH]; intros command rho rho' sigma w S; [reflexivity|].
  destruct command as [|s|ref kind children block own]; try reflexivity.
  cbn [relabel execute].
  rewrite !index_relabel, S.
  rewrite (evaluate_relabel (index children 0) rho rho' sigma S).
  rewrite (evaluate_relabel (index children 1) rho rho' sigma S).
  destruct kind as [[[]| | | | |]|]; try reflexivity.
  - pose proof (elaborate_relabel (index children 0) rho rho' sigma w S) as E.
    unfold elaborated_alike in E.
    destruct (elaborate (index children 0) rho sigma w) as [[[rho1 sigma1]|e] w1],
             (elaborate (relabel f g (index children 0)) rho' sigma w)
               as [[[rho1' sigma1']|e'] w1'];
      try contradiction.
    + destruct E as (S1 & -> & ->). apply IH, S1.
    + destruct E as (-> & ->). reflexivity.
  - rewrite (IH _ _ _ _ _ S).
    destruct (execute fuel (index children 0) rho sigma w) as [[[sigma1|e]|] w1];
      try reflexivity.
    apply IH, S.
  - destruct (evaluate (index children 0) rho sigma) as [[[]|]|]; try reflexivity.
    apply IH, S.
  - destruct (evaluate (index children 0) rho sigma) as [[[]|]|]; try reflexivity;
      apply IH, S.
  - destruct (evaluate (index children 0) rho sigma) as [[[]|]|]; try reflexivity.
    rewrite (IH _ _ _ _ _ S).
    destruct (execute fuel (index children 1) rho sigma w) as [[[sigma1|e]|] w1];
      try reflexivity.
    apply (IH (object ref (Some (Command CommandKind.WHILE)) children block own)), S.
Qed.

End Relabel.

(** ** The [for] loop *)

Section ForLoop.
Context `{host : JS.Host}.
Import Specification.

(** [execute] reads the kind and the children of the two inner nodes of
    the expansion, never their identity, block or other properties. *)
Lemma execute_loop_of_expansion (cond step body : Node)
  (r1 r2 r1' r2' : nat) (b1 b2 b1' b2' : option Block) o1 o2 o1' o2' (fuel : nat) :
  forall rho sigma w,
    execute fuel
      (object r1 (Some (Command CommandKind.WHILE))
         [cond; object r2 (Some (Command CommandKind.COMMAND_COMMAND)) [body; step] b2 o2]
         b1 o1) rho sigma w
    = execute fuel
      (object r1' (Some (Command CommandKind.WHILE))
         [cond; object r2' (Some (Command CommandKind.COMMAND_COMMAND)) [body; step] b2' o2']
         b1' o1') rho sigma w.
Proof.
  induction fuel as [|fuel IH]; intros rho sigma w; [reflexivity|].
  cbn [execute index nth].
  destruct (evaluate cond rho sigma) as [[[]|]|]; try reflexivity.
  destruct fuel as [|fuel]; [reflexivity|].
  cbn [execute index nth] in IH |- *.
  destruct (execute fuel body rho sigma w) as [[[sigma1|e]|] w1]; try reflexivity.
  destruct (execute fuel step rho sigma1 w1) as [[[sigma2|e]|] w2]; try reflexivity.
  apply IH.
Qed.

Lemma execute_hand_expanded_for (outer loop sequence outer' loop' sequence' : nat * option Block)
  (init_decl cond step body : Node) (fuel : nat) (rho : Rho) (sigma : Sigma) (w : World) :
  execute fuel (hand_expanded_for outer loop sequence init_decl cond step body) rho sigma w
  = execute fuel (hand_expanded_for outer' loop' sequence' init_decl cond step body) rho sigma w.
Proof.
  destruct fuel as [|fuel]; [reflexivity|].
  unfold hand_expanded_for. cbn [execute index nth].
  destruct (elaborate init_decl rho sigma w) as [[[rho1 sigma1]|e] w1];
    [apply execute_loop_of_expansion | reflexivity].
Qed.

(** C5. The action of the production
    [FOR ( declaration , expression , single_command ) DO command_body]
    builds [DECLARATION_COMMAND(init_decl, WHILE(cond, COMMAND_COMMAND(body, step)))],
    and executing what it builds ends as executing the hand-expanded form
    does, at every depth: same completion and same printed values,
    whichever objects the three command nodes of the hand-expanded form
    are, and also when its declaration, condition, step and body are a
    second copy made of other objects, run in an environment with the same
    bindings. *)
Theorem for_loop_is_its_hand_expansion
  (r r1 r2 : nat) (init_decl cond step body : Node) :
  let for_loop :=
    LexerParserBlocks.single_command_FOR r r1 r2 init_decl cond step body in
  for_loop
  = hand_expanded_for (r, None) (r1, None) (r2, None) init_decl cond step body
  /\ (forall outer loop sequence fuel rho sigma w,
      execute fuel (hand_expanded_for outer loop sequence init_decl cond step body)
              rho sigma w
      = execute fuel for_loop rho sigma w)
  /\ (forall f g, (forall a b, f a = f b -> a = b) ->
      forall outer loop sequence fuel rho rho' sigma w,
        same_bindings f g rho rho' ->
        execute fuel
          (hand_expanded_for outer loop sequence
             (relabel f g init_decl) (relabel f g cond)
             (relabel f g step) (relabel f g body))
          rho' sigma w
        = execute fuel for_loop rho sigma w).
Proof.
  intros for_loop.
  assert (shape : for_loop
                  = hand_expanded_for (r, None) (r1, None) (r2, None)
                                      init_decl cond step body)
    by reflexivity.
  split; [exact shape|]. rewrite shape. split.
  - intros outer loop sequence fuel rho sigma w.
    apply execute_hand_expanded_for.
  - intros f g injective outer loop sequence fuel rho rho' sigma w S.
    rewrite <- (execute_relabel f g injective fuel _ rho rho' sigma w S).
    change (relabel f g (hand_expanded_for (r, None) (r1, None) (r2, None)
                           init_decl cond step body))
      with (hand_expanded_for (f r, g r) (f r1, g r1) (f r2, g r2)
              (relabel f g init_decl) (relabel f g cond)
              (relabel f g step) (relabel f g body)).
    apply execute_hand_expanded_for.
Qed.

(** The production of [lexer-parser.ts],
    [FOR declaration , expression , single_command DO command_body], has
    no parentheses and another action: the loop body it builds is slot
    [$11] followed by an [ASSIGNMENT] node over the step command [$6] and
    the body [$8]. *)
Lemma older_for_action (r r1 r2 r3 : nat) (s2 s4 s6 s8 s11 : Node) :
  LexerParser.single_command_FOR r r1 r2 r3 s2 s4 s6 s8 s11
  = hand_expanded_for (r, None) (r1, None) (r2, None) s2 s4
      (LexerParser.single_command_ASSIGNMENT r3 s6 s8) s11.
Proof. reflexivity. Qed.

End ForLoop.

(** ** Literals, [!=] and a whole program *)

Section Runs.
Context `{host : JS.Host}.
Import Examples.

(** C1. The program that declares [x] with [5], assigns [x + 1] to [x] and
    prints [x] does not print [6].  Built by the actions of
    [lexer-parser.ts] the run reports [UNDEFINED_IDENTIFICATOR] and prints
    nothing; built from the nodes of the parser file with blocks it reports
    [UNKNOWN_EXPRESSION] and prints nothing, and the two sequencing
    actions of that file throw a [TypeError] before there is a tree;
    in the shape [elaborate] reads, with a single node object for [x], it
    prints NaN.  So at every bound of three nested calls or more. *)
Theorem increment_program_does_not_print_6 (fuel : nat) :
  observed (run (3 + fuel) increment_old)
  = (Some (Return tt), [], [inl UNDEFINED_IDENTIFICATOR])
  /\ observed (run (3 + fuel) increment_new)
     = (Some (Return tt), [], [inr UNKNOWN_EXPRESSION])
  /\ LexerParserBlocks.command_COMMAND_COMMAND 16 new_assignment new_print
     = Throw TypeError
  /\ observed (run (3 + fuel) increment_shared)
     = (Some (Return tt), [number JS.NaN], []).
Proof. repeat split. Qed.

(** C2. A [VALUE] expression does not evaluate to its literal.  With the
    nodes of the parser file with blocks, [true] evaluates to [false] and a
    number literal to NaN, because a [ValueNode] has no property [token];
    were the literal's text read instead, [Boolean] of the text ["false"]
    is [true].  With the nodes of [lexer-parser.ts] the [ValueNode] has no
    [kind], the inner [switch] matches nothing and control falls into the
    identifier case. *)
Theorem literal_is_not_its_value (rho : Rho) (sigma : Sigma) :
  evaluate literal_true rho sigma = Return (boolean false)
  /\ evaluate literal_5 rho sigma = Return (number JS.NaN)
  /\ get (LexerParserBlocks.value_BOOLEAN_VALUE 20 "true") "token" = JS.p_undefined
  /\ JS.Boolean (get (LexerParserBlocks.value_BOOLEAN_VALUE 22 "false") "value") = true
  /\ evaluate old_literal_true RHO_0 SIGMA_0
     = Throw (StaticError UNDEFINED_IDENTIFICATOR)
  /\ evaluate old_literal_5 RHO_0 SIGMA_0
     = Throw (StaticError UNDEFINED_IDENTIFICATOR).
Proof. repeat split. Qed.

(** C3. [!=] answers what [==] answers.  For operands of one type both
    return [value1 === value2], so [!=] is true exactly when the values
    are equal; for operands of two types both throw [WRONG_TYPE].  So
    [false != (!false)], whose operands evaluate to [false] and [true],
    evaluates to [false]. *)
Theorem not_equal_answers_as_equal (rho : Rho) (sigma : Sigma) :
  (forall value1 value2,
      binary_switch (text "==") value1 value2
      = if String.eqb (typeof value1) (typeof value2)
        then Return (boolean (JS.strict_eq value1 value2))
        else Throw (StaticError WRONG_TYPE))
  /\ (forall value1 value2,
      binary_switch (text "!=") value1 value2
      = if String.eqb (typeof value1) (typeof value2)
        then Return (boolean (JS.strict_eq value1 value2))
        else Throw (StaticError WRONG_TYPE))
  /\ evaluate literal_false rho sigma = Return (boolean false)
  /\ evaluate not_false rho sigma = Return (boolean true)
  /\ JS.strict_eq (boolean false) (boolean true) = false
  /\ evaluate false_differs_from_not_false rho sigma = Return (boolean false)
  /\ evaluate false_equals_not_false rho sigma = Return (boolean false).
Proof. repeat split. Qed.

End Runs.

(** ** The theorems at concrete inputs *)

Section Witnesses.
Import Examples.
#[local] Existing Instance bare_host.

Lemma extend_witness :
  JS.strict_eq a x = false
  /\ extend rho_x x (inr (boolean true)) x = Some (inr (boolean true))
  /\ extend rho_x x (inr (boolean true)) a = rho_x a
  /\ rho_x x = Some (inl 0%nat)
  /\ JS.strict_eq 1%nat 0%nat = false
  /\ extend sigma_true 0%nat (boolean false) 1%nat = sigma_true 1%nat.
Proof.
  destruct extend_intercepts_delegates_and_keeps_the_old_map as [R S].
  destruct (R rho_x x (inr (boolean true))) as [R1 [R2 _]].
  destruct (R RHO_0 x (inl 0%nat)) as [_ [_ R3]].
  destruct (S sigma_true 0%nat (boolean false)) as [_ [S2 _]].
  split; [reflexivity|].
  split; [exact R1|].
  split; [apply R2; reflexivity|].
  split; [exact (proj2 (R3 (inr (boolean true))))|].
  split; [reflexivity|].
  apply S2; reflexivity.
Defined.

Lemma execute_ASSIGNMENT_witness :
  let rho_const : Rho := extend RHO_0 x (inr (boolean true)) in
  (RHO_0 x = None
   /\ execute 1 x_becomes_false RHO_0 SIGMA_0 WORLD_0
      = (Some (Throw (StaticError UNDEFINED_IDENTIFICATOR)), WORLD_0))
  /\ (rho_const x = Some (inr (boolean true))
      /\ execute 1 x_becomes_false rho_const SIGMA_0 WORLD_0
         = (Some (Throw (StaticError CONSTANT_REASSIGNMENT)), WORLD_0))
  /\ (rho_x x = Some (inl 0%nat)
      /\ evaluate literal_false rho_x sigma_true = Return (boolean false)
      /\ execute 1 x_becomes_false rho_x sigma_true WORLD_0
         = (Some (Return (extend sigma_true 0%nat (boolean false))), WORLD_0)).
Proof.
  intros rho_const.
  split; [|split].
  - split; [reflexivity|].
    apply (proj1 (execute_ASSIGNMENT 0 51 None [] x literal_false []
                    RHO_0 SIGMA_0 WORLD_0)).
    reflexivity.
  - split; [reflexivity|].
    apply (proj1 (proj2 (execute_ASSIGNMENT 0 51 None [] x literal_false []
                           rho_const SIGMA_0 WORLD_0)) (boolean true)).
    reflexivity.
  - split; [reflexivity|]. split; [reflexivity|].
    apply (proj2 (proj2 (execute_ASSIGNMENT 0 51 None [] x literal_false []
                           rho_x sigma_true WORLD_0))); reflexivity.
Defined.

Lemma execute_WHILE_witness :
  let sigma_false : Sigma := extend sigma_true 0%nat (boolean false) in
  let while_5 := LexerParserBlocks.single_command_WHILE 52 literal_5 x_becomes_false in
  (evaluate literal_5 rho_x sigma_true = Return (number JS.NaN)
   /\ execute 1 while_5 rho_x sigma_true WORLD_0
      = (Some (Throw (StaticError WRONG_TYPE)), WORLD_0))
  /\ (evaluate (LexerParserBlocks.expression_IDENTIFICATOR 50 x) rho_x sigma_false
      = Return (boolean false)
      /\ execute 1 while_x rho_x sigma_false WORLD_0 = (Some (Return sigma_false), WORLD_0))
  /\ (evaluate (LexerParserBlocks.expression_IDENTIFICATOR 50 x) rho_x sigma_true
      = Return (boolean true)
      /\ execute 1 x_becomes_false rho_x sigma_true WORLD_0
         = (Some (Return sigma_false), WORLD_0)
      /\ execute 2 while_x rho_x sigma_true WORLD_0
         = execute 1 while_x rho_x sigma_false WORLD_0
      /\ Executes while_x rho_x sigma_true WORLD_0 (Return sigma_false) WORLD_0).
Proof.
  intros sigma_false while_5.
  split; [|split].
  - split; [reflexivity|].
    apply (proj1 (execute_WHILE 52 None [] literal_5 x_becomes_false []
                    rho_x sigma_true WORLD_0) JS.NaN 0%nat).
    reflexivity.
  - split; [reflexivity|].
    apply (proj1 (proj2 (execute_WHILE 52 None []
                           (LexerParserBlocks.expression_IDENTIFICATOR 50 x)
                           x_becomes_false [] rho_x sigma_false WORLD_0)) 0%nat).
    reflexivity.
  - destruct (proj2 (proj2 (execute_WHILE 52 None []
                              (LexerParserBlocks.expression_IDENTIFICATOR 50 x)
                              x_becomes_false [] rho_x sigma_true WORLD_0))
                eq_refl sigma_false WORLD_0) as [step loop].
    split; [reflexivity|]. split; [reflexivity|].
    split; [apply step; reflexivity|].
    apply loop.
    + exists 1%nat. reflexivity.
    + exists 1%nat. reflexivity.
Defined.

Lemma evaluate_unary_minus_witness :
  let minus operand := LexerParserBlocks.expression_UNARY_OPERATOR 60 (text "-") operand in
  let an_a := LexerParserBlocks.expression_IDENTIFICATOR 42 a in
  (evaluate an_a rho_7_2 SIGMA_0 = Return (number seven)
   /\ evaluate (minus an_a) rho_7_2 SIGMA_0 = Return (number seven))
  /\ (evaluate literal_false rho_7_2 SIGMA_0 = Return (boolean false)
      /\ evaluate (minus literal_false) rho_7_2 SIGMA_0
         = Throw (StaticError WRONG_TYPE)).
Proof.
  intros minus an_a. split; (split; [reflexivity|]).
  - apply (proj1 (evaluate_unary_minus 60 None [] an_a [] rho_7_2 SIGMA_0) seven).
    reflexivity.
  - apply (proj2 (evaluate_unary_minus 60 None [] literal_false [] rho_7_2 SIGMA_0) false).
    reflexivity.
Defined.

Lemma evaluate_division_witness :
  let rho_7_0 : Rho := extend rho_7_2 b (inr (number PrimFloat.zero)) in
  (JS.number_strict_eq two PrimFloat.zero = false
   /\ evaluate (a_op_b "/") rho_7_2 SIGMA_0
      = Return (number (PrimFloat.div seven two))
   /\ evaluate (a_op_b "//") rho_7_2 SIGMA_0 = Return (number (JS.of_Z 3))
   /\ evaluate (a_op_b "%") rho_7_2 SIGMA_0 = Return (number (JS.of_Z 1)))
  /\ (JS.number_strict_eq PrimFloat.zero PrimFloat.zero = true
      /\ evaluate (a_op_b "/") rho_7_0 SIGMA_0 = Throw (DynamicError DIVISION_BY_ZERO)
      /\ evaluate (a_op_b "//") rho_7_0 SIGMA_0 = Throw (DynamicError DIVISION_BY_ZERO)
      /\ evaluate (a_op_b "%") rho_7_0 SIGMA_0 = Throw (DynamicError DIVISION_BY_ZERO)).
Proof.
  intros rho_7_0.
  destruct (evaluate_division 44 None []
              (LexerParserBlocks.expression_IDENTIFICATOR 42 a)
              (LexerParserBlocks.expression_IDENTIFICATOR 43 b) []
              rho_7_2 SIGMA_0 seven two eq_refl eq_refl)
    as [_ [nonzero [floor_7_2 remainder_7_2]]].
  destruct (evaluate_division 44 None []
              (LexerParserBlocks.expression_IDENTIFICATOR 42 a)
              (LexerParserBlocks.expression_IDENTIFICATOR 43 b) []
              rho_7_0 SIGMA_0 seven PrimFloat.zero eq_refl eq_refl)
    as [zero _].
  split.
  - split; [reflexivity|].
    destruct (nonzero eq_refl) as [Q [F R]].
    split; [exact Q|].
    split; [rewrite <- floor_7_2; exact F | rewrite <- remainder_7_2; exact R].
  - split; [reflexivity|]. exact (zero eq_refl).
Defined.

Lemma environment_keys_witness :
  let n1 := LexerParserBlocks.identificator_IDENTIFICATOR 0 "x" in
  let n2 := LexerParserBlocks.identificator_IDENTIFICATOR 5 "x" in
  let rho1 : Rho := extend RHO_0 n1 (inl 0%nat) in
  let sigma1 : Sigma := extend SIGMA_0 0%nat (boolean false) in
  0%nat <> 5%nat
  /\ evaluate literal_false RHO_0 SIGMA_0 = Return (boolean false)
  /\ get n1 "identificator" = get n2 "identificator"
  /\ evaluate (LexerParserBlocks.expression_IDENTIFICATOR 7 n1) rho1 sigma1
     = Return (boolean false)
  /\ evaluate (LexerParserBlocks.expression_IDENTIFICATOR 7 n2) rho1 sigma1
     = Throw (StaticError UNDEFINED_IDENTIFICATOR)
  /\ execute 1 (LexerParserBlocks.single_command_ASSIGNMENT 7 n2 literal_false)
             rho1 sigma1 WORLD_0
     = (Some (Throw (StaticError UNDEFINED_IDENTIFICATOR)), WORLD_0).
Proof.
  intros n1 n2 rho1 sigma1.
  assert (D : 0%nat <> 5%nat) by discriminate.
  destruct (environment_keys_are_node_objects 0 5 7 "x" literal_false (boolean false)
              RHO_0 SIGMA_0 WORLD_0 D eq_refl)
    as (_ & _ & _ & found & _ & _ & _ & unbound).
  destruct (unbound eq_refl) as (missed & _ & assignment).
  split; [exact D|]. split; [reflexivity|]. split; [reflexivity|].
  split; [exact found|]. split; [exact missed|].
  exact (proj1 (assignment 0%nat literal_false WORLD_0)).
Defined.

Lemma for_loop_witness :
  let f := fun r => (r + 100)%nat in
  let g := fun _ : nat => @None Block in
  (forall a b, f a = f b -> a = b)
  /\ Specification.same_bindings f g RHO_0 RHO_0
  /\ execute 5
       (Specification.hand_expanded_for (1%nat, None) (2%nat, None) (3%nat, None)
          (Specification.relabel f g for_declaration)
          (Specification.relabel f g for_condition)
          (Specification.relabel f g x_becomes_false)
          (Specification.relabel f g for_body))
       RHO_0 SIGMA_0 WORLD_0
     = execute 5 for_x RHO_0 SIGMA_0 WORLD_0
  /\ fst (execute 5 for_x RHO_0 SIGMA_0 WORLD_0)
     = Some (Return (extend (extend SIGMA_0 0%nat (boolean true)) 0%nat (boolean false)))
  /\ console_log (snd (execute 5 for_x RHO_0 SIGMA_0 WORLD_0)) = [boolean true].
Proof.
  intros f g.
  assert (injective : forall a b, f a = f b -> a = b)
    by (intros a b E; apply (Nat.add_cancel_r a b 100), E).
  assert (S : Specification.same_bindings f g RHO_0 RHO_0)
    by (intros key; reflexivity).
  split; [exact injective|]. split; [exact S|].
  split; [|split; reflexivity].
  apply (proj2 (proj2 (for_loop_is_its_hand_expansion 58 57 56
                         for_declaration for_condition x_becomes_false for_body))
           f g injective (1%nat, None) (2%nat, None) (3%nat, None) 5%nat
           RHO_0 RHO_0 SIGMA_0 WORLD_0 S).
Defined.

End Witnesses.

Local Open Scope list_scope.

(** ** What a call does to the world *)

Section Effects.
Context `{host : JS.Host}.

(** [w'] is [w] after more [Symbol()] calls and more printed values, the
    printed ones kept in order and the error reports untouched. *)
Definition later (w w' : World) : Prop :=
  (symbols w <= symbols w')%nat
  /\ (exists printed, console_log w' = (console_log w ++ printed)%list)
  /\ console_error w' = console_error w.

Lemma later_refl (w : World) : later w w.
Proof.
  split; [apply Nat.le_refl|]. split; [|reflexivity].
  exists []. symmetry. apply app_nil_r.
Qed.

Lemma later_trans (w1 w2 w3 : World) : later w1 w2 -> later w2 w3 -> later w1 w3.
Proof.
  intros (S12 & [p12 L12] & E12) (S23 & [p23 L23] & E23).
  split; [exact (Nat.le_trans _ _ _ S12 S23)|]. split.
  - exists (p12 ++ p23). rewrite L23, L12. symmetry. apply app_assoc.
  - rewrite E23. exact E12.
Qed.

(** A declaration prints nothing and reports nothing; it only takes
    symbols. *)
Lemma elaborate_world (declaration : Node) :
  forall rho sigma w,
    let w' := snd (elaborate declaration rho sigma w) in
    (symbols w <= symbols w')%nat
    /\ console_log w' = console_log w
    /\ console_error w' = console_error w.
Proof.
  induction declaration as [|s|ref kind children block own IH]
    using Node_children_ind; intros rho sigma w;
    try (repeat split; apply Nat.le_refl).
  cbn [elaborate].
  destruct kind as [[| |[]| | |]|]; try (repeat split; apply Nat.le_refl).
  - destruct (evaluate (index children 1) rho sigma);
      repeat split; apply Nat.le_refl.
  - cbn [newLocation].
    destruct (evaluate (index children 1) rho sigma);
      repeat split; cbn; apply Nat.le_succ_diag_r.
  - destruct children as [|declaration1 rest];
      [repeat split; apply Nat.le_refl|].
    inversion IH as [|? ? I1 IH1]; subst.
    specialize (I1 rho sigma w). cbv zeta in I1.
    destruct (elaborate declaration1 rho sigma w) as [[[rho1 sigma1]|e] w1];
      cbn [snd] in I1; [|exact I1].
    destruct rest as [|declaration2 rest]; [exact I1|].
    inversion IH1 as [|? ? I2 _]; subst.
    specialize (I2 rho1 sigma1 w1). cbv zeta in I2.
    destruct I1 as (S1 & L1 & E1), I2 as (S2 & L2 & E2).
    split; [exact (Nat.le_trans _ _ _ S1 S2)|].
    split; [rewrite L2; exact L1 | rewrite E2; exact E1].
Qed.

Lemma elaborate_later (declaration : Node) rho sigma w :
  later w (snd (elaborate declaration rho sigma w)).
Proof.
  destruct (elaborate_world declaration rho sigma w) as (S & L & E).
  split; [exact S|]. split; [|exact E].
  exists []. rewrite L. symmetry. apply app_nil_r.
Qed.

Lemma log_later (value : Value) (w : World) : later w (log value w).
Proof.
  split; [apply Nat.le_refl|]. split; [|reflexivity].
  exists [value]. reflexivity.
Qed.

(** However a call of [execute] ends, the world after it is a later one. *)
Lemma execute_later (fuel : nat) :
  forall command rho sigma w,
    later w (snd (execute fuel command rho sigma w)).
Proof.
  induction fuel as [|fuel IH]; intros command rho sigma w; [apply later_refl|].
  destruct command as [|s|ref kind children block own]; try apply later_refl.
  cbn [execute].
  destruct kind as [[[]| | | | |]|]; try apply later_refl.
  - pose proof (elaborate_later (index children 0) rho sigma w) as L.
    destruct (elaborate (index children 0) rho sigma w) as [[[rho1 sigma1]|e] w1];
      cbn [snd] in L |- *; [|exact L].
    exact (later_trans _ _ _ L (IH _ _ _ _)).
  - pose proof (IH (index children 0) rho sigma w) as L.
    destruct (execute fuel (index children 0) rho sigma w) as [[[sigma1|e]|] w1];
      cbn [snd] in L |- *; try exact L.
    exact (later_trans _ _ _ L (IH _ _ _ _)).
  - destruct (rho (index children 0)) as [[location|value]|]; try apply later_refl.
    destruct (evaluate (index children 1) rho sigma); apply later_refl.
  - destruct (evaluate (index children 0) rho sigma) as [[[]|]|];
      try apply later_refl. apply IH.
  - destruct (evaluate (index children 0) rho sigma) as [[[]|]|];
      try apply later_refl; apply IH.
  - destruct (evaluate (index children 0) rho sigma) as [[[]|]|];
      try apply later_refl.
    pose proof (IH (index children 1) rho sigma w) as L.
    destruct (execute fuel (index children 1) rho sigma w) as [[[sigma1|e]|] w1];
      cbn [snd] in L |- *; try exact L.
    exact (later_trans _ _ _ L (IH _ _ _ _)).
  - destruct (evaluate (index children 0) rho sigma);
      [apply log_later | apply later_refl].
Qed.

(** X1: however a call of [execute] ends, by returning, by throwing or by
    not ending within the bound, what was printed before the call is
    still there, in order, followed by what the call printed; no symbol
    is given back and nothing is reported to [console.error]. *)
Theorem execute_only_adds_to_the_world
  (fuel : nat) (command : Node) (rho : Rho) (sigma : Sigma) (w : World) :
  let w' := snd (execute fuel command rho sigma w) in
  (symbols w <= symbols w')%nat
  /\ (exists printed, console_log w' = console_log w ++ printed)
  /\ console_error w' = console_error w.
Proof. apply execute_later. Qed.

(** X2: a declaration prints nothing and reports nothing, whatever it
    elaborates to; it can only take symbols. *)
Theorem elaborate_prints_nothing
  (declaration : Node) (rho : Rho) (sigma : Sigma) (w : World) :
  let w' := snd (elaborate declaration rho sigma w) in
  (symbols w <= symbols w')%nat
  /\ console_log w' = console_log w
  /\ console_error w' = console_error w.
Proof. apply elaborate_world. Qed.

End Effects.

(** ** The binary and unary operators *)

(** The operator texts with a [case] in the binary [switch], in its order. *)
Definition binary_operators : list string :=
  ["+"; "-"; "*"; "/"; "=="; "!="; "<"; ">"; "<="; ">="; "&&"; "||"; "//"; "%"; "^"].

Definition arithmetic_operators : list string := ["+"; "-"; "*"; "/"; "//"; "%"; "^"].
Definition relational_operators : list string := ["<"; ">"; "<="; ">="].
Definition logical_operators : list string := ["&&"; "||"].
Definition equality_operators : list string := ["=="; "!="].

(** Case analysis on a text down to the characters a [switch] looks at. *)
Ltac split_text :=
  repeat match goal with
  | |- context [match ?x with EmptyString => _ | String _ _ => _ end] =>
      is_var x; destruct x
  | |- context [match ?x with Ascii _ _ _ _ _ _ _ _ => _ end] =>
      is_var x; destruct x
  | |- context [if ?x then _ else _] => is_var x; destruct x
  end.

(** An element of a list of texts written out is one of them. *)
Ltac one_of H :=
  repeat (destruct H as [H|H]; [subst|]); [..|contradiction H].

Section Operators.
Context `{host : JS.Host}.

Lemma binary_switch_unknown (s : string) (value1 value2 : Value) :
  existsb (String.eqb s) binary_operators = false ->
  binary_switch (text s) value1 value2 = Throw (DynamicError UNKNOWN_OPERATOR).
Proof.
  unfold binary_switch. cbv zeta.
  split_text; cbn; intros E; try reflexivity; discriminate E.
Qed.

(** What the binary [switch] can end with. *)
Lemma binary_switch_ends (operator : Node) (value1 value2 : Value) :
  (exists value, binary_switch operator value1 value2 = Return value)
  \/ binary_switch operator value1 value2 = Throw (StaticError WRONG_TYPE)
  \/ binary_switch operator value1 value2 = Throw (DynamicError DIVISION_BY_ZERO)
  \/ binary_switch operator value1 value2 = Throw (DynamicError UNKNOWN_OPERATOR).
Proof.
  destruct operator as [|s|]; [right; right; right; reflexivity| |right; right; right; reflexivity].
  unfold binary_switch. cbv zeta.
  split_text; try (right; right; right; reflexivity);
    destruct value1, value2; cbn;
    try (right; left; reflexivity);
    try (left; eexists; reflexivity);
    match goal with
    | |- context [negb ?b] =>
        destruct b; cbn; [right; right; left; reflexivity | left; eexists; reflexivity]
    end.
Qed.

(** X3: the binary operators are a closed set.  With both operands
    evaluated, the [switch] throws [UNKNOWN_OPERATOR] exactly when the
    operator is a text outside the fifteen with a [case]; an operator that
    is no text at all is unknown too. *)
Theorem binary_operators_are_a_closed_set (value1 value2 : Value) :
  (forall s,
      binary_switch (text s) value1 value2 = Throw (DynamicError UNKNOWN_OPERATOR)
      <-> existsb (String.eqb s) binary_operators = false)
  /\ binary_switch undefined value1 value2 = Throw (DynamicError UNKNOWN_OPERATOR)
  /\ (forall ref kind children block own,
      binary_switch (object ref kind children block own) value1 value2
      = Throw (DynamicError UNKNOWN_OPERATOR)).
Proof.
  split; [|split; reflexivity].
  intros s. split; [|apply binary_switch_unknown].
  destruct (existsb (String.eqb s) binary_operators) eqn:E; [|reflexivity].
  intros U. exfalso.
  apply existsb_exists in E. destruct E as (op & I & E).
  apply String.eqb_eq in E. subst op.
  unfold binary_operators in I. one_of I;
    destruct value1, value2; cbn in U; try discriminate U;
    match type of U with
    | context [negb ?b] => destruct b; discriminate U
    end.
Qed.

(** X4: no operator converts its operands.  An arithmetic operator returns
    only from two numbers, and a number; a relational one only from two
    numbers, and a boolean; a logical one only from two booleans, and a
    boolean; [==] and [!=] only from two values of one type, and a
    boolean. *)
Theorem binary_operators_are_typed (s : string) (value1 value2 value : Value) :
  binary_switch (text s) value1 value2 = Return value ->
  (In s arithmetic_operators ->
     typeof value1 = "number" /\ typeof value2 = "number" /\ typeof value = "number")
  /\ (In s relational_operators ->
     typeof value1 = "number" /\ typeof value2 = "number" /\ typeof value = "boolean")
  /\ (In s logical_operators ->
     typeof value1 = "boolean" /\ typeof value2 = "boolean" /\ typeof value = "boolean")
  /\ (In s equality_operators ->
     typeof value1 = typeof value2 /\ typeof value = "boolean").
Proof.
  intros R.
  split; [|split; [|split]]; intros I;
    unfold arithmetic_operators, relational_operators, logical_operators,
      equality_operators in I;
    one_of I; destruct value1, value2; cbn in R; try discriminate R;
    try (injection R as <-; repeat split);
    match type of R with
    | context [negb ?b] => destruct b; cbn in R; [discriminate R|];
                           injection R as <-; repeat split
    end.
Qed.

(** X5: both operands are evaluated, left then right, before the operator
    is looked at.  What the left operand throws is thrown; otherwise what
    the right operand throws is thrown, whatever the operator and the left
    value: [&&] and [||] do not stop at a deciding left operand, and an
    unknown operator or a left operand of the wrong type is only noticed
    after the right operand returned. *)
Theorem both_operands_are_evaluated_first (ref : nat) block own
  (operand1 operator operand2 : Node) (rest : list Node)
  (rho : Rho) (sigma : Sigma) :
  let expression := object ref (Some (Expression ExpressionKind.BINARY_OPERATOR))
                           (operand1 :: operator :: operand2 :: rest) block own in
  (forall e, evaluate operand1 rho sigma = Throw e ->
             evaluate expression rho sigma = Throw e)
  /\ (forall value1 e,
        evaluate operand1 rho sigma = Return value1 ->
        evaluate operand2 rho sigma = Throw e ->
        evaluate expression rho sigma = Throw e).
Proof.
  split.
  - intros e E1. cbn [evaluate]. rewrite E1. reflexivity.
  - intros value1 e E1 E2. cbn [evaluate]. rewrite E1. cbn [bind].
    rewrite E2. reflexivity.
Qed.

(** X6: unary [!] negates a boolean and throws [WRONG_TYPE] on a number,
    unary [+] returns a number as it is and throws [WRONG_TYPE] on a
    boolean; so [!(!e)] evaluates to what a boolean [e] evaluates to. *)
Theorem evaluate_unary_not_and_plus (ref ref' : nat) block block' own own'
  (operand : Node) (rest rest' : list Node) (rho : Rho) (sigma : Sigma) :
  let unary (r : nat) b o (operator : string) (e : Node) (l : list Node) :=
    object r (Some (Expression ExpressionKind.UNARY_OPERATOR))
           (text operator :: e :: l) b o in
  (forall a, evaluate operand rho sigma = Return (boolean a) ->
     evaluate (unary ref block own "!" operand rest) rho sigma = Return (boolean (negb a))
     /\ evaluate (unary ref block own "+" operand rest) rho sigma
        = Throw (StaticError WRONG_TYPE)
     /\ evaluate (unary ref' block' own' "!"
                    (unary ref block own "!" operand rest) rest') rho sigma
        = Return (boolean a))
  /\ (forall x, evaluate operand rho sigma = Return (number x) ->
     evaluate (unary ref block own "+" operand rest) rho sigma = Return (number x)
     /\ evaluate (unary ref block own "!" operand rest) rho sigma
        = Throw (StaticError WRONG_TYPE)).
Proof.
  intros unary. split.
  - intros a E.
    assert (N : evaluate (unary ref block own "!" operand rest) rho sigma
                = Return (boolean (negb a)))
      by (subst unary; cbn [evaluate index nth]; rewrite E; reflexivity).
    split; [exact N|]. split.
    + subst unary. cbn [evaluate index nth]. rewrite E. reflexivity.
    + unfold unary at 1. cbn [evaluate index nth]. fold (unary ref block own "!" operand rest).
      rewrite N. cbn. rewrite Bool.negb_involutive. reflexivity.
  - intros x E. subst unary.
    split; cbn [evaluate index nth]; rewrite E; reflexivity.
Qed.

End Operators.

(** ** Locations: every one in the environment has a cell *)

(** [sigma(l)] returns. *)
Definition bound (sigma : Sigma) (l : Location) : Prop :=
  exists value, sigma l = Some value.

(** Every location [rho] answers has a cell in [sigma]. *)
Definition closed (rho : Rho) (sigma : Sigma) : Prop :=
  forall key l, rho key = Some (inl l) -> bound sigma l.

(** Every cell of [sigma] is at a symbol [Symbol()] has already made. *)
Definition allocated (sigma : Sigma) (w : World) : Prop :=
  forall l, bound sigma l -> (l < symbols w)%nat.

(** [sigma'] has every cell of [sigma]. *)
Definition grows (sigma sigma' : Sigma) : Prop :=
  forall l, bound sigma l -> bound sigma' l.

(** Anything but the string ['undefined'], which nothing catches. *)
Definition caught (e : Thrown) : Prop :=
  match e with
  | thrown_undefined => False
  | _ => True
  end.

Section Consistency.
Context `{host : JS.Host}.

Lemma bound_extend (sigma : Sigma) (l l' : Location) (value : Value) :
  bound (extend sigma l value) l' <-> l' = l \/ bound sigma l'.
Proof.
  unfold bound, extend, JS.strict_eq, Location_strict_eq.
  destruct (Nat.eqb l' l) eqn:E.
  - apply Nat.eqb_eq in E. split; [left; exact E | intros _; eexists; reflexivity].
  - apply Nat.eqb_neq in E. split; [right; assumption | intros [C|B]; [contradiction|exact B]].
Qed.

Lemma closed_grows (rho : Rho) (sigma sigma' : Sigma) :
  closed rho sigma -> grows sigma sigma' -> closed rho sigma'.
Proof. intros C G key l R. apply G, (C key l R). Qed.

Lemma binary_switch_caught (operator : Node) (value1 value2 : Value) (e : Thrown) :
  binary_switch operator value1 value2 = Throw e -> caught e.
Proof.
  intros T.
  destruct (binary_switch_ends operator value1 value2) as [[v R]|[R|[R|R]]];
    rewrite R in T; [discriminate T| | |]; injection T as <-; exact I.
Qed.

Lemma identificator_case_caught (children : list Node) (rho : Rho) (sigma : Sigma) e :
  closed rho sigma -> identificator_case children rho sigma = Throw e -> caught e.
Proof.
  intros C. unfold identificator_case.
  destruct (rho (index children 0)) as [[l|value]|] eqn:R.
  - destruct (C _ _ R) as [value S]. rewrite S. discriminate.
  - discriminate.
  - intros T. injection T as <-. exact I.
Qed.

(** With every location of [rho] in [sigma], [evaluate] never throws the
    string ['undefined']. *)
Lemma evaluate_caught (expression : Node) :
  forall rho sigma e,
    closed rho sigma -> evaluate expression rho sigma = Throw e -> caught e.
Proof.
  induction expression as [|s|ref kind children block own IH]
    using Node_children_ind; intros rho sigma e C;
    try (intros T; injection T as <-; exact I).
  assert (binary : forall e,
    match children with
    | [] => Throw TypeError
    | operand1 :: rest =>
        bind (evaluate operand1 rho sigma) (fun value1 =>
        match rest with
        | operator :: operand2 :: _ =>
            bind (evaluate operand2 rho sigma) (fun value2 =>
            binary_switch operator value1 value2)
        | _ => Throw TypeError
        end)
    end = Throw e -> caught e).
  { intros e'. destruct children as [|operand1 rest];
      [intros T; injection T as <-; exact I|].
    inversion IH as [|? ? I1 IH1]; subst.
    destruct (evaluate operand1 rho sigma) as [value1|e1] eqn:E1; cbn [bind].
    - destruct rest as [|operator [|operand2 rest]];
        try (intros T; injection T as <-; exact I).
      inversion IH1 as [|? ? _ IH2]; subst. inversion IH2 as [|? ? I3 _]; subst.
      destruct (evaluate operand2 rho sigma) as [value2|e2] eqn:E2; cbn [bind].
      + apply binary_switch_caught.
      + intros T. injection T as <-. exact (I3 _ _ _ C E2).
    - intros T. injection T as <-. exact (I1 _ _ _ C E1). }
  cbn [evaluate].
  destruct kind as [[|[]| | | |]|]; try (intros T; injection T as <-; exact I).
  - destruct (index children 0) as [|s|r [[| | |[]| |]|] cs b o];
      try apply (identificator_case_caught _ _ _ _ C);
      try discriminate.
    intros T; injection T as <-; exact I.
  - apply (identificator_case_caught _ _ _ _ C).
  - destruct children as [|operator [|operand rest]];
      try (cbn [bind]; intros T; injection T as <-; exact I).
    inversion IH as [|? ? _ IH1]; subst. inversion IH1 as [|? ? I2 _]; subst.
    destruct (evaluate operand rho sigma) as [value|e2] eqn:E2; cbn [bind].
    + destruct (unary_switch (index (operator :: operand :: rest) 0) value)
        as [[v|e']|] eqn:U.
      * discriminate.
      * intros T. injection T as <-.
        destruct operator as [|s|]; try discriminate U.
        unfold index in U. cbn [nth] in U. unfold unary_switch in U.
        revert U. split_text; destruct value; intros U;
          try discriminate U; injection U as <-; exact I.
      * apply binary.
    + intros T. injection T as <-. exact (I2 _ _ _ C E2).
  - apply binary.
  - destruct children as [|inner rest]; [intros T; injection T as <-; exact I|].
    inversion IH as [|? ? I1 _]; subst. apply I1, C.
Qed.

(** What [elaborate] keeps: the environment it returns is closed over
    the store it returns, that store has only cells at symbols already
    made, and every cell there was before reads as before. *)
Lemma elaborate_keeps (declaration : Node) :
  forall rho sigma w,
    closed rho sigma -> allocated sigma w ->
    match elaborate declaration rho sigma w with
    | (Return (rho1, sigma1), w1) =>
        closed rho1 sigma1 /\ allocated sigma1 w1
        /\ (forall l, bound sigma l -> sigma1 l = sigma l)
    | (Throw e, _) => caught e
    end.
Proof.
  induction declaration as [|s|ref kind children block own IH]
    using Node_children_ind; intros rho sigma w C A; try exact I.
  cbn [elaborate].
  destruct kind as [[| |[]| | |]|]; try exact I.
  - repeat split; [exact C | exact A].
  - destruct (evaluate (index children 1) rho sigma) as [value|e] eqn:E;
      [|exact (evaluate_caught _ _ _ _ C E)].
    split; [|split; [exact A | reflexivity]].
    intros key l. unfold extend at 1.
    destruct (JS.strict_eq key (index children 0)); [discriminate | apply C].
  - cbn [newLocation].
    destruct (evaluate (index children 1) rho sigma) as [value|e] eqn:E;
      [|exact (evaluate_caught _ _ _ _ C E)].
    split; [|split].
    + intros key l. unfold extend at 1.
      destruct (JS.strict_eq key (index children 0)).
      * intros R. injection R as <-. apply bound_extend. left. reflexivity.
      * intros R. apply bound_extend. right. exact (C _ _ R).
    + intros l B. apply bound_extend in B. cbn [symbols].
      destruct B as [->|B]; [apply Nat.lt_succ_diag_r|].
      apply Nat.lt_lt_succ_r, A, B.
    + intros l B. unfold extend, JS.strict_eq, Location_strict_eq.
      apply A in B. apply Nat.lt_neq in B. apply Nat.eqb_neq in B.
      rewrite B. reflexivity.
  - destruct children as [|declaration1 rest]; [exact I|].
    inversion IH as [|? ? I1 IH1]; subst.
    specialize (I1 rho sigma w C A).
    destruct (elaborate declaration1 rho sigma w) as [[[rho1 sigma1]|e] w1];
      [|exact I1].
    destruct I1 as (C1 & A1 & K1).
    destruct rest as [|declaration2 rest]; [exact I|].
    inversion IH1 as [|? ? I2 _]; subst.
    specialize (I2 rho1 sigma1 w1 C1 A1).
    destruct (elaborate declaration2 rho1 sigma1 w1) as [[[rho2 sigma2]|e] w2];
      [|exact I2].
    destruct I2 as (C2 & A2 & K2).
    split; [exact C2|]. split; [exact A2|].
    intros l B. rewrite <- (K1 l B). apply K2.
    destruct B as [value B]. exists value. rewrite (K1 l); [exact B|].
    exists value. exact B.
Qed.

(** What [execute] keeps. *)
Lemma execute_keeps (fuel : nat) :
  forall command rho sigma w,
    closed rho sigma -> allocated sigma w ->
    match execute fuel command rho sigma w with
    | (Some (Return sigma'), w') => grows sigma sigma' /\ allocated sigma' w'
    | (Some (Throw e), _) => caught e
    | (None, _) => True
    end.
Proof.
  induction fuel as [|fuel IH]; intros command rho sigma w C A; [exact I|].
  assert (same : grows sigma sigma) by (intros l B; exact B).
  destruct command as [|s|ref kind children block own]; try exact I.
  cbn [execute].
  destruct kind as [[[]| | | | |]|]; try exact I.
  - split; [exact same | exact A].
  - pose proof (elaborate_keeps (index children 0) rho sigma w C A) as K.
    destruct (elaborate (index children 0) rho sigma w) as [[[rho1 sigma1]|e] w1];
      [|exact K].
    destruct K as (C1 & A1 & K1).
    specialize (IH (index children 1) rho1 sigma1 w1 C1 A1).
    destruct (execute fuel (index children 1) rho1 sigma1 w1) as [[[sigma2|e]|] w2];
      try exact IH.
    destruct IH as [G2 A2]. split; [|exact A2].
    intros l B. apply G2. destruct B as [value B]. exists value.
    rewrite K1; [exact B | exists value; exact B].
  - pose proof (IH (index children 0) rho sigma w C A) as K.
    destruct (execute fuel (index children 0) rho sigma w) as [[[sigma1|e]|] w1];
      try exact K.
    destruct K as [G1 A1].
    specialize (IH (index children 1) rho sigma1 w1 (closed_grows _ _ _ C G1) A1).
    destruct (execute fuel (index children 1) rho sigma1 w1) as [[[sigma2|e]|] w2];
      try exact IH.
    destruct IH as [G2 A2]. split; [|exact A2].
    intros l B. apply G2, G1, B.
  - destruct (rho (index children 0)) as [[l|value]|] eqn:R; try exact I.
    destruct (evaluate (index children 1) rho sigma) as [value|e] eqn:E;
      [|exact (evaluate_caught _ _ _ _ C E)].
    split.
    + intros l' B. apply bound_extend. right. exact B.
    + intros l' B. apply bound_extend in B.
      destruct B as [->|B]; [exact (A _ (C _ _ R)) | exact (A _ B)].
  - destruct (evaluate (index children 0) rho sigma) as [[[]|]|e] eqn:E;
      [apply IH; assumption | split; [exact same | exact A] | exact I
       | exact (evaluate_caught _ _ _ _ C E)].
  - destruct (evaluate (index children 0) rho sigma) as [[[]|]|e] eqn:E;
      [apply IH; assumption | apply IH; assumption | exact I
       | exact (evaluate_caught _ _ _ _ C E)].
  - destruct (evaluate (index children 0) rho sigma) as [[[]|]|e] eqn:E;
      [ | split; [exact same | exact A] | exact I
        | exact (evaluate_caught _ _ _ _ C E)].
    pose proof (IH (index children 1) rho sigma w C A) as K.
    destruct (execute fuel (index children 1) rho sigma w) as [[[sigma1|e]|] w1];
      try exact K.
    destruct K as [G1 A1].
    specialize (IH (object ref (Some (Command CommandKind.WHILE)) children block own)
                   rho sigma1 w1 (closed_grows _ _ _ C G1) A1).
    destruct (execute fuel (object ref (Some (Command CommandKind.WHILE)) children block own)
                      rho sigma1 w1) as [[[sigma2|e]|] w2];
      try exact IH.
    destruct IH as [G2 A2]. split; [|exact A2].
    intros l B. apply G2, G1, B.
  - destruct (evaluate (index children 0) rho sigma) as [value|e] eqn:E;
      [|exact (evaluate_caught _ _ _ _ C E)].
    split; [exact same | exact A].
Qed.

End Consistency.

(** ** Consequences for declarations, commands and runs *)

Section Reachable.
Context `{host : JS.Host}.

(** X7: a declaration, however many it is made of, gives its variables
    cells of their own.  From an environment whose locations all have a
    cell, and a store whose cells are all at symbols already made, the
    store it returns reads as before at every cell there was, so at every
    variable that was visible; and the environment and store it returns
    are again such a pair. *)
Theorem declarations_take_new_cells
  (declaration : Node) (rho rho1 : Rho) (sigma sigma1 : Sigma) (w w1 : World) :
  closed rho sigma -> allocated sigma w ->
  elaborate declaration rho sigma w = (Return (rho1, sigma1), w1) ->
  (forall l, bound sigma l -> sigma1 l = sigma l)
  /\ (forall key l, rho key = Some (inl l) -> sigma1 l = sigma l)
  /\ closed rho1 sigma1 /\ allocated sigma1 w1.
Proof.
  intros C A E. pose proof (elaborate_keeps declaration rho sigma w C A) as K.
  rewrite E in K. destruct K as (C1 & A1 & K1).
  split; [exact K1|]. split; [|split; assumption].
  intros key l R. apply K1, (C key l R).
Qed.

(** X8: a command that returns leaves every location of the environment
    with a cell: the store it returns has every cell of the store it was
    given, and only cells at symbols already made. *)
Theorem execute_keeps_every_location_bound
  (fuel : nat) (command : Node) (rho : Rho) (sigma sigma' : Sigma) (w w' : World) :
  closed rho sigma -> allocated sigma w ->
  execute fuel command rho sigma w = (Some (Return sigma'), w') ->
  grows sigma sigma' /\ closed rho sigma' /\ allocated sigma' w'.
Proof.
  intros C A E. pose proof (execute_keeps fuel command rho sigma w C A) as K.
  rewrite E in K. destruct K as [G A'].
  split; [exact G|]. split; [exact (closed_grows _ _ _ C G) | exact A'].
Qed.




End Reachable.

(** ** How commands and declarations compose *)

(** Two commands end alike: from every environment, store and world, one
    ends with a completion and a world exactly when the other does. *)
Definition ends_alike `{JS.Host} (command command' : Node) : Prop :=
  forall rho sigma w c w',
    Executes command rho sigma w c w' <-> Executes command' rho sigma w c w'.

Section Laws.
Context `{host : JS.Host}.

Local Abbreviation node kind children ref block own :=
  (object ref (Some (Command kind)) children block own) (only parsing).

Lemma Executes_NIL ref block own children rho sigma w c w' :
  Executes (node CommandKind.NIL children ref block own) rho sigma w c w'
  <-> c = Return sigma /\ w' = w.
Proof.
  split.
  - intros [[|fuel] H]; [discriminate H|]. cbn in H.
    injection H as <- <-. split; reflexivity.
  - intros [-> ->]. exists 1%nat. reflexivity.
Qed.

Lemma Executes_COMMAND_COMMAND ref block own command1 command2 rest
  rho sigma w c w' :
  Executes (node CommandKind.COMMAND_COMMAND (command1 :: command2 :: rest) ref block own)
           rho sigma w c w'
  <-> (exists sigma1 w1,
          Executes command1 rho sigma w (Return sigma1) w1
          /\ Executes command2 rho sigma1 w1 c w')
      \/ (exists e, c = Throw e /\ Executes command1 rho sigma w (Throw e) w').
Proof.
  split.
  - intros [[|fuel] H]; [discriminate H|]. cbn [execute index nth] in H.
    destruct (execute fuel command1 rho sigma w) as [[[sigma1|e]|] w1] eqn:E1.
    + left. exists sigma1, w1. split; exists fuel; assumption.
    + injection H as <- <-. right. exists e. split; [reflexivity|].
      exists fuel. exact E1.
    + discriminate H.
  - intros [(sigma1 & w1 & [f1 E1] & [f2 E2]) | (e & -> & [f E])].
    + exists (S (Nat.max f1 f2)). cbn [execute index nth].
      rewrite (execute_fuel_le f1 _ _ _ _ _ _ _ (Nat.le_max_l f1 f2) E1).
      exact (execute_fuel_le f2 _ _ _ _ _ _ _ (Nat.le_max_r f1 f2) E2).
    + exists (S f). cbn [execute index nth]. rewrite E. reflexivity.
Qed.

Lemma Executes_DECLARATION_COMMAND ref block own declaration command1 rest
  rho sigma w c w' :
  Executes (node CommandKind.DECLARATION_COMMAND (declaration :: command1 :: rest)
                 ref block own) rho sigma w c w'
  <-> (exists rho1 sigma1 w1,
          elaborate declaration rho sigma w = (Return (rho1, sigma1), w1)
          /\ Executes command1 rho1 sigma1 w1 c w')
      \/ (exists e, c = Throw e
                    /\ elaborate declaration rho sigma w = (Throw e, w')).
Proof.
  split.
  - intros [[|fuel] H]; [discriminate H|]. cbn [execute index nth] in H.
    destruct (elaborate declaration rho sigma w) as [[[rho1 sigma1]|e] w1].
    + left. exists rho1, sigma1, w1. split; [reflexivity|]. exists fuel. exact H.
    + injection H as <- <-. right. exists e. split; reflexivity.
  - intros [(rho1 & sigma1 & w1 & E & [f H]) | (e & -> & E)].
    + exists (S f). cbn [execute index nth]. rewrite E. exact H.
    + exists 1%nat. cbn [execute index nth]. rewrite E. reflexivity.
Qed.

Lemma Executes_IF ref block own condition command1 rest rho sigma w c w' :
  Executes (node CommandKind.IF_ (condition :: command1 :: rest) ref block own)
           rho sigma w c w'
  <-> match evaluate condition rho sigma with
      | Return (boolean true) => Executes command1 rho sigma w c w'
      | Return (boolean false) => c = Return sigma /\ w' = w
      | Return (number _) => c = wrong_type /\ w' = w
      | Throw e => c = Throw e /\ w' = w
      end.
Proof.
  split.
  - intros [[|fuel] H]; [discriminate H|]. cbn [execute index nth] in H.
    destruct (evaluate condition rho sigma) as [[[]|]|];
      try (injection H as <- <-; split; reflexivity).
    exists fuel. exact H.
  - destruct (evaluate condition rho sigma) as [[[]|]|] eqn:E.
    + intros [f H]. exists (S f). cbn [execute index nth]. rewrite E. exact H.
    + intros [-> ->]. exists 1%nat. cbn [execute index nth]. rewrite E. reflexivity.
    + intros [-> ->]. exists 1%nat. cbn [execute index nth]. rewrite E. reflexivity.
    + intros [-> ->]. exists 1%nat. cbn [execute index nth]. rewrite E. reflexivity.
Qed.

Lemma Executes_IF_ELSE ref block own condition command1 command2 rest
  rho sigma w c w' :
  Executes (node CommandKind.IF_ELSE (condition :: command1 :: command2 :: rest)
                 ref block own) rho sigma w c w'
  <-> match evaluate condition rho sigma with
      | Return (boolean true) => Executes command1 rho sigma w c w'
      | Return (boolean false) => Executes command2 rho sigma w c w'
      | Return (number _) => c = wrong_type /\ w' = w
      | Throw e => c = Throw e /\ w' = w
      end.
Proof.
  split.
  - intros [[|fuel] H]; [discriminate H|]. cbn [execute index nth] in H.
    destruct (evaluate condition rho sigma) as [[[]|]|];
      try (injection H as <- <-; split; reflexivity);
      exists fuel; exact H.
  - destruct (evaluate condition rho sigma) as [[[]|]|] eqn:E.
    + intros [f H]. exists (S f). cbn [execute index nth]. rewrite E. exact H.
    + intros [f H]. exists (S f). cbn [execute index nth]. rewrite E. exact H.
    + intros [-> ->]. exists 1%nat. cbn [execute index nth]. rewrite E. reflexivity.
    + intros [-> ->]. exists 1%nat. cbn [execute index nth]. rewrite E. reflexivity.
Qed.

Lemma Executes_WHILE ref block own condition command1 rest rho sigma w c w' :
  let command := node CommandKind.WHILE (condition :: command1 :: rest) ref block own in
  Executes command rho sigma w c w'
  <-> match evaluate condition rho sigma with
      | Return (boolean true) =>
          (exists sigma1 w1,
              Executes command1 rho sigma w (Return sigma1) w1
              /\ Executes command rho sigma1 w1 c w')
          \/ (exists e, c = Throw e /\ Executes command1 rho sigma w (Throw e) w')
      | Return (boolean false) => c = Return sigma /\ w' = w
      | Return (number _) => c = wrong_type /\ w' = w
      | Throw e => c = Throw e /\ w' = w
      end.
Proof.
  intros command. split.
  - intros [[|fuel] H]; [discriminate H|]. subst command.
    cbn [execute index nth] in H.
    destruct (evaluate condition rho sigma) as [[[]|]|];
      try (injection H as <- <-; split; reflexivity).
    destruct (execute fuel command1 rho sigma w) as [[[sigma1|e]|] w1] eqn:E1.
    + left. exists sigma1, w1. split; exists fuel; assumption.
    + injection H as <- <-. right. exists e. split; [reflexivity|].
      exists fuel. exact E1.
    + discriminate H.
  - subst command. destruct (evaluate condition rho sigma) as [[[]|]|] eqn:E.
    + intros [(sigma1 & w1 & [f1 E1] & [f2 E2]) | (e & -> & [f E1])].
      * exists (S (Nat.max f1 f2)). cbn [execute index nth]. rewrite E.
        rewrite (execute_fuel_le f1 _ _ _ _ _ _ _ (Nat.le_max_l f1 f2) E1).
        exact (execute_fuel_le f2 _ _ _ _ _ _ _ (Nat.le_max_r f1 f2) E2).
      * exists (S f). cbn [execute index nth]. rewrite E, E1. reflexivity.
    + intros [-> ->]. exists 1%nat. cbn [execute index nth]. rewrite E. reflexivity.
    + intros [-> ->]. exists 1%nat. cbn [execute index nth]. rewrite E. reflexivity.
    + intros [-> ->]. exists 1%nat. cbn [execute index nth]. rewrite E. reflexivity.
Qed.

(** X10: sequencing is associative: [(a; b); c] and [a; (b; c)] end alike,
    so the grouping the parser picks for [command ; command ; command]
    does not show. *)
Theorem sequencing_is_associative
  (r1 r2 r3 r4 : nat) b1 b2 b3 b4 o1 o2 o3 o4 (a b c : Node) :
  ends_alike
    (node CommandKind.COMMAND_COMMAND
          [node CommandKind.COMMAND_COMMAND [a; b] r1 b1 o1; c] r2 b2 o2)
    (node CommandKind.COMMAND_COMMAND
          [a; node CommandKind.COMMAND_COMMAND [b; c] r3 b3 o3] r4 b4 o4).
Proof.
  intros rho sigma w r w'.
  rewrite !Executes_COMMAND_COMMAND. split.
  - intros [(sigma2 & w2 & AB & C) | (e & -> & AB)].
    + apply Executes_COMMAND_COMMAND in AB.
      destruct AB as [(sigma1 & w1 & A & B) | (e & D & _)]; [|discriminate D].
      left. exists sigma1, w1. split; [exact A|].
      apply Executes_COMMAND_COMMAND. left. exists sigma2, w2. split; assumption.
    + apply Executes_COMMAND_COMMAND in AB.
      destruct AB as [(sigma1 & w1 & A & B) | (e' & D & A)].
      * left. exists sigma1, w1. split; [exact A|].
        apply Executes_COMMAND_COMMAND. right. exists e. split; [reflexivity|exact B].
      * injection D as <-. right. exists e. split; [reflexivity|exact A].
  - intros [(sigma1 & w1 & A & BC) | (e & -> & A)].
    + apply Executes_COMMAND_COMMAND in BC.
      destruct BC as [(sigma2 & w2 & B & C) | (e & -> & B)].
      * left. exists sigma2, w2. split; [|exact C].
        apply Executes_COMMAND_COMMAND. left. exists sigma1, w1. split; assumption.
      * right. exists e. split; [reflexivity|].
        apply Executes_COMMAND_COMMAND. left. exists sigma1, w1. split; assumption.
    + right. exists e. split; [reflexivity|].
      apply Executes_COMMAND_COMMAND. right. exists e. split; [reflexivity|exact A].
Qed.

(** X11: the empty command is the unit of sequencing: [; c] and [c ;] end
    as [c] does. *)
Theorem the_empty_command_is_a_unit
  (r1 r2 r3 r4 : nat) b1 b2 b3 b4 o1 o2 o3 o4 (l1 l2 : list Node) (c : Node) :
  ends_alike
    (node CommandKind.COMMAND_COMMAND [node CommandKind.NIL l1 r1 b1 o1; c] r2 b2 o2) c
  /\ ends_alike
    (node CommandKind.COMMAND_COMMAND [c; node CommandKind.NIL l2 r3 b3 o3] r4 b4 o4) c.
Proof.
  split; intros rho sigma w r w'; rewrite Executes_COMMAND_COMMAND; split.
  - intros [(sigma1 & w1 & N & C) | (e & _ & N)]; apply Executes_NIL in N.
    + destruct N as [N ->]. injection N as ->. exact C.
    + destruct N as [N _]. discriminate N.
  - intros C. left. exists sigma, w. split; [|exact C].
    apply Executes_NIL. split; reflexivity.
  - intros [(sigma1 & w1 & C & N) | (e & -> & C)]; [|exact C].
    apply Executes_NIL in N. destruct N as [-> ->]. exact C.
  - intros C. destruct r as [sigma1|e].
    + left. exists sigma1, w'. split; [exact C|].
      apply Executes_NIL. split; reflexivity.
    + right. exists e. split; [reflexivity|exact C].
Qed.

(** X12: [if c then a] ends as [if c then a else] with the empty command in
    the else branch. *)
Theorem IF_is_IF_ELSE_with_an_empty_else
  (r1 r2 r3 : nat) b1 b2 b3 o1 o2 o3 (l : list Node) (condition command1 : Node) :
  ends_alike
    (node CommandKind.IF_ [condition; command1] r1 b1 o1)
    (node CommandKind.IF_ELSE
          [condition; command1; node CommandKind.NIL l r2 b2 o2] r3 b3 o3).
Proof.
  intros rho sigma w r w'.
  rewrite Executes_IF, Executes_IF_ELSE.
  destruct (evaluate condition rho sigma) as [[[]|]|]; try reflexivity.
  rewrite Executes_NIL. reflexivity.
Qed.

(** X13: a loop is its first unrolling: [while c do b] ends as
    [if c then { b ; while c do b }] with the same loop node inside. *)
Theorem WHILE_is_its_unrolling
  (r1 r2 r3 : nat) b1 b2 b3 o1 o2 o3 (condition command1 : Node) :
  let loop := node CommandKind.WHILE [condition; command1] r1 b1 o1 in
  ends_alike loop
    (node CommandKind.IF_
          [condition; node CommandKind.COMMAND_COMMAND [command1; loop] r2 b2 o2]
          r3 b3 o3).
Proof.
  intros loop rho sigma w r w'. subst loop.
  rewrite Executes_WHILE, Executes_IF.
  destruct (evaluate condition rho sigma) as [[[]|]|]; try reflexivity.
  rewrite Executes_COMMAND_COMMAND. reflexivity.
Qed.

(** X14: a compound declaration scopes as nested ones:
    [DECLARATION_COMMAND(DECLARATION_DECLARATION(d1, d2), c)] ends as
    [DECLARATION_COMMAND(d1, DECLARATION_COMMAND(d2, c))]. *)
Theorem compound_declaration_is_nested_scopes
  (r1 r2 r3 r4 : nat) b1 b2 b3 b4 o1 o2 o3 o4 (d1 d2 c : Node) :
  ends_alike
    (node CommandKind.DECLARATION_COMMAND
          [object r1 (Some (Declaration DeclarationKind.DECLARATION_DECLARATION))
                  [d1; d2] b1 o1; c] r2 b2 o2)
    (node CommandKind.DECLARATION_COMMAND
          [d1; node CommandKind.DECLARATION_COMMAND [d2; c] r3 b3 o3] r4 b4 o4).
Proof.
  intros rho sigma w r w'.
  rewrite !Executes_DECLARATION_COMMAND. cbn [elaborate].
  destruct (elaborate d1 rho sigma w) as [[[rho1 sigma1]|e1] w1] eqn:E1.
  - split.
    + intros [(rho2 & sigma2 & w2 & E2 & C) | (e & -> & E2)].
      * left. exists rho1, sigma1, w1. split; [reflexivity|].
        apply Executes_DECLARATION_COMMAND. left.
        exists rho2, sigma2, w2. split; assumption.
      * left. exists rho1, sigma1, w1. split; [reflexivity|].
        apply Executes_DECLARATION_COMMAND. right. exists e. split; [reflexivity|exact E2].
    + intros [(rho1' & sigma1' & w1' & E & DC) | (e & _ & E)]; [|discriminate E].
      injection E as <- <- <-.
      apply Executes_DECLARATION_COMMAND in DC.
      destruct DC as [(rho2 & sigma2 & w2 & E2 & C) | (e & -> & E2)].
      * left. exists rho2, sigma2, w2. split; assumption.
      * right. exists e. split; [reflexivity|exact E2].
  - split.
    + intros [(rho2 & sigma2 & w2 & E2 & _) | (e & -> & E2)]; [discriminate E2|].
      right. exists e. split; [reflexivity|exact E2].
    + intros [(rho1' & sigma1' & w1' & E & _) | (e & -> & E)]; [discriminate E|].
      right. exists e. split; [reflexivity|exact E].
Qed.

(** X15: compound declarations are associative and the empty declaration is
    their unit: from every environment, store and world the two groupings
    elaborate to the same result, and [DECLARATION_DECLARATION(NIL, d)]
    elaborates as [d]. *)
Theorem declarations_compose
  (r1 r2 r3 r4 r5 r6 : nat) b1 b2 b3 b4 b5 b6 o1 o2 o3 o4 o5 o6 (l : list Node)
  (d1 d2 d3 : Node) (rho : Rho) (sigma : Sigma) (w : World) :
  let DD r b o x y :=
    object r (Some (Declaration DeclarationKind.DECLARATION_DECLARATION)) [x; y] b o in
  let NIL := object r5 (Some (Declaration DeclarationKind.NIL)) l b5 o5 in
  elaborate (DD r2 b2 o2 (DD r1 b1 o1 d1 d2) d3) rho sigma w
  = elaborate (DD r4 b4 o4 d1 (DD r3 b3 o3 d2 d3)) rho sigma w
  /\ elaborate (DD r6 b6 o6 NIL d1) rho sigma w = elaborate d1 rho sigma w.
Proof.
  cbv zeta. split; [|reflexivity].
  cbn [elaborate].
  destruct (elaborate d1 rho sigma w) as [[[rho1 sigma1]|e1] w1]; [|reflexivity].
  destruct (elaborate d2 rho1 sigma1 w1) as [[[rho2 sigma2]|e2] w2]; reflexivity.
Qed.


End Laws.

(** ** Variables: assignment, shadowing, and what a run depends on *)

Section Variables.
Context `{host : JS.Host}.

Local Abbreviation read x ref block own :=
  (object ref (Some (Expression ExpressionKind.IDENTIFICATOR)) [x] block own)
  (only parsing).

(** Reading an identifier bound to a location returns the cell. *)
Lemma evaluate_read_location ref block own (x : Node) rest
  (rho : Rho) (sigma : Sigma) (l : Location) :
  rho x = Some (inl l) ->
  evaluate (object ref (Some (Expression ExpressionKind.IDENTIFICATOR)) (x :: rest) block own)
           rho sigma
  = match sigma l with
    | Some value => Return value
    | None => Throw thrown_undefined
    end.
Proof.
  intros R. cbn [evaluate]. unfold identificator_case. cbn [index nth].
  rewrite R. reflexivity.
Qed.

(** X17: an assignment is read back, and it touches nothing else.  After
    [x = e] with [x] at location [l] and [e] evaluating to [v], reading
    [x] returns [v]; every identifier at another location, and every
    constant, reads as before. *)
Theorem assignment_is_read_back (fuel ref ref' : nat) block block' own own'
  (x e : Node) (rest : list Node) (rho : Rho) (sigma : Sigma) (w : World)
  (l : Location) (v : Value) :
  rho x = Some (inl l) ->
  evaluate e rho sigma = Return v ->
  exists sigma',
    execute (S fuel)
      (object ref (Some (Command CommandKind.ASSIGNMENT)) (x :: e :: rest) block own)
      rho sigma w
    = (Some (Return sigma'), w)
    /\ evaluate (read x ref' block' own') rho sigma' = Return v
    /\ (forall y l', rho y = Some (inl l') -> l' <> l ->
          evaluate (read y ref' block' own') rho sigma'
          = evaluate (read y ref' block' own') rho sigma)
    /\ (forall y c, rho y = Some (inr c) ->
          evaluate (read y ref' block' own') rho sigma' = Return c).
Proof.
  intros R E. exists (extend sigma l v).
  split; [cbn [execute index nth]; rewrite R, E; reflexivity|].
  split; [|split].
  - rewrite (evaluate_read_location _ _ _ _ _ _ _ _ R).
    rewrite extend_same; [reflexivity | apply Location_strict_eq_refl].
  - intros y l' Ry D.
    rewrite !(evaluate_read_location _ _ _ _ _ _ _ _ Ry).
    rewrite extend_other; [reflexivity | apply Nat.eqb_neq, D].
  - intros y c Ry. cbn [evaluate]. unfold identificator_case. cbn [index nth].
    rewrite Ry. reflexivity.
Qed.

(** X18: an inner declaration shadows, and leaving its scope restores.  In
    [{ declare x with e1; print x }; print x], where [x] already reads
    [v0] and [e1] evaluates to [v1], the run prints [v1] and then [v0],
    whether the inner declaration is a constant or a variable; a variable
    leaves its cell in the store, at the symbol it took. *)
Theorem inner_declaration_shadows_and_leaving_restores
  (fuel ref : nat) block own (x e1 : Node) (v0 v1 : Value)
  (rho : Rho) (sigma : Sigma) (w : World) :
  let print :=
    object ref (Some (Command CommandKind.PRINT)) [read x ref block own] block own in
  let scoped kind :=
    object ref (Some (Command CommandKind.COMMAND_COMMAND))
      [object ref (Some (Command CommandKind.DECLARATION_COMMAND))
         [object ref (Some (Declaration kind)) [x; e1] block own; print] block own;
       print] block own in
  closed rho sigma -> allocated sigma w ->
  evaluate (read x ref block own) rho sigma = Return v0 ->
  evaluate e1 rho sigma = Return v1 ->
  execute (3 + fuel) (scoped DeclarationKind.CONSTANT) rho sigma w
  = (Some (Return sigma), log v0 (log v1 w))
  /\ execute (3 + fuel) (scoped DeclarationKind.VARIABLE) rho sigma w
     = (Some (Return (extend sigma (symbols w) v1)),
        log v0 (log v1 (snd (newLocation w)))).
Proof.
  intros print scoped C A E0 E1. subst scoped print.
  assert (inner_const :
    evaluate (read x ref block own) (extend rho x (inr v1)) sigma = Return v1).
  { cbn [evaluate]. unfold identificator_case. cbn [index nth].
    rewrite extend_same; [reflexivity | apply Node_strict_eq_refl]. }
  assert (inner_let :
    evaluate (read x ref block own)
             (extend rho x (@inl Location Value (symbols w)))
             (extend sigma (symbols w : Location) v1) = Return v1).
  { cbn [evaluate]. unfold identificator_case. cbn [index nth].
    rewrite extend_same; [|apply Node_strict_eq_refl].
    rewrite extend_same; [reflexivity | apply Location_strict_eq_refl]. }
  assert (outer :
    evaluate (read x ref block own) rho (extend sigma (symbols w : Location) v1)
    = Return v0).
  { revert E0. cbn [evaluate]. unfold identificator_case. cbn [index nth].
    destruct (rho x) as [[l|c]|] eqn:R; try (intros E0; exact E0).
    rewrite extend_other; [intros E0; exact E0|].
    apply Nat.eqb_neq, Nat.lt_neq, A, (C x l R). }
  split.
  - cbn [execute elaborate index nth plus]. rewrite E1.
    cbn [execute index nth]. rewrite inner_const, E0. reflexivity.
  - cbn [execute elaborate index nth plus newLocation]. rewrite E1.
    cbn [execute index nth]. rewrite inner_let, outer. reflexivity.
Qed.

(** X19: a run depends on the shape of the tree, not on which objects it is
    made of: a copy of the program whose objects are renamed one to one,
    with any blocks, runs to the same completion, prints and report. *)
Theorem run_of_a_copy (f : nat -> nat) (g : nat -> option Block)
  (fuel : nat) (program : Node) :
  (forall r r', f r = f r' -> r = r') ->
  run fuel (Specification.relabel f g program) = run fuel program.
Proof.
  intros injective. unfold run.
  rewrite (execute_relabel f g injective fuel program RHO_0 RHO_0 SIGMA_0 WORLD_0);
    [reflexivity|].
  intros key. reflexivity.
Qed.

(** X20: a node of another family is unknown to each of the three
    functions, and so is a text.  [execute] throws the dynamic error
    [UNKNOWN_COMMAND] on every object whose kind is no command kind,
    [evaluate] the dynamic error [UNKNOWN_EXPRESSION] on every object
    whose kind is no expression kind, [elaborate] the static error
    [UNKNOWN_DECLARATION] on every object whose kind is no declaration
    kind; on [undefined] each ends in a [TypeError]. *)
Theorem other_kinds_are_unknown (fuel ref : nat) (kind : option Kind)
  (children : list Node) block own (s : string)
  (rho : Rho) (sigma : Sigma) (w : World) :
  let node := object ref kind children block own in
  ((forall k, kind <> Some (Command k)) ->
     execute (S fuel) node rho sigma w
     = (Some (Throw (DynamicError UNKNOWN_COMMAND)), w))
  /\ ((forall k, kind <> Some (Expression k)) ->
     evaluate node rho sigma = Throw (DynamicError UNKNOWN_EXPRESSION))
  /\ ((forall k, kind <> Some (Declaration k)) ->
     elaborate node rho sigma w = (Throw (StaticError UNKNOWN_DECLARATION), w))
  /\ execute (S fuel) (text s) rho sigma w
     = (Some (Throw (DynamicError UNKNOWN_COMMAND)), w)
  /\ evaluate (text s) rho sigma = Throw (DynamicError UNKNOWN_EXPRESSION)
  /\ elaborate (text s) rho sigma w = (Throw (StaticError UNKNOWN_DECLARATION), w)
  /\ execute (S fuel) undefined rho sigma w = (Some (Throw TypeError), w)
  /\ evaluate undefined rho sigma = Throw TypeError
  /\ elaborate undefined rho sigma w = (Throw TypeError, w).
Proof.
  intros node. subst node.
  split; [|split; [|split; [|repeat split]]]; intros N;
    destruct kind as [[k|k|k|k|k|k]|]; try reflexivity;
    exfalso; exact (N k eq_refl).
Qed.

End Variables.

(** ** The nodes the grammar actions build *)

(** How [new IdentificatorNode(identificator, block)] ends: with the node,
    with the [SmLLError] of kind [LEXICAL_ERROR] at a line and column, or
    with the [TypeError] of reading [firstLine] from a block that is not
    there. *)
Inductive Constructed : Type :=
| built (node : Node)
| lexical_error (line column : Z)
| no_block_to_report.

(** The constructor with its call of [validate()]. *)
Definition new_IdentificatorNode (ref : nat) (identificator : string)
  (block : option Block) : Constructed :=
  if LexerParserBlocks.validate identificator
  then built (LexerParserBlocks.IdentificatorNode ref identificator block)
  else match block with
       | Some b => lexical_error (firstLine b) (firstColumn b)
       | None => no_block_to_report
       end.

Section Parser.
Context `{host : JS.Host}.

(** X21: no two members of the six kind enums have the same number, so the
    [switch] on [kind] in [execute], [evaluate] and [elaborate] tells a
    member of one family from every member of another: two kinds have one
    number exactly when they are one kind. *)
Theorem kinds_have_numbers_of_their_own (k k' : Kind) :
  Kind_code k = Kind_code k' <-> k = k'.
Proof. split; [apply Kind_code_inj | intros ->; reflexivity]. Qed.

(** X22: [union] keeps the start of its receiver and the end of its
    argument, so it is associative and idempotent and forgets what lies
    between: the union of three blocks is the union of the first and the
    last. *)
Theorem union_spans_first_to_last (a b c : Block) :
  union (union a b) c = union a (union b c)
  /\ union (union a b) c = union a c
  /\ union a a = a
  /\ firstLine (union a b) = firstLine a
  /\ firstColumn (union a b) = firstColumn a
  /\ lastLine (union a b) = lastLine b
  /\ lastColumn (union a b) = lastColumn b.
Proof. destruct a, b, c. repeat split. Qed.

(** X23: the two sequencing actions of the parser file with blocks need a
    block on both sides.  With both they build the node, spanning from
    the start of the left block to the end of the right one; with either
    missing they throw a [TypeError].  Every other action of that grammar
    builds its node without a block. *)
Theorem sequencing_actions_need_both_blocks (ref r : nat) (s1 s3 a b c : Node)
  (yytext : string) :
  (LexerParserBlocks.block_of s1 = None \/ LexerParserBlocks.block_of s3 = None ->
     LexerParserBlocks.command_DECLARATION_COMMAND ref s1 s3 = Throw TypeError
     /\ LexerParserBlocks.command_COMMAND_COMMAND ref s1 s3 = Throw TypeError)
  /\ (forall b1 b3,
        LexerParserBlocks.block_of s1 = Some b1 ->
        LexerParserBlocks.block_of s3 = Some b3 ->
        LexerParserBlocks.command_DECLARATION_COMMAND ref s1 s3
        = Return (LexerParserBlocks.CommandNode ref [s1; s3]
                    CommandKind.DECLARATION_COMMAND (Some (union b1 b3)))
        /\ LexerParserBlocks.command_COMMAND_COMMAND ref s1 s3
           = Return (LexerParserBlocks.CommandNode ref [s1; s3]
                       CommandKind.COMMAND_COMMAND (Some (union b1 b3))))
  /\ List.map LexerParserBlocks.block_of
       [LexerParserBlocks.single_command_ASSIGNMENT ref a b;
        LexerParserBlocks.single_command_IF_ELSE ref a b c;
        LexerParserBlocks.single_command_IF ref a b;
        LexerParserBlocks.single_command_WHILE ref a b;
        LexerParserBlocks.single_command_PRINT ref a;
        LexerParserBlocks.single_command_FOR ref r r a b c s1;
        LexerParserBlocks.declaration_NIL ref;
        LexerParserBlocks.declaration_LET ref a b c;
        LexerParserBlocks.declaration_CONST ref a b c;
        LexerParserBlocks.declaration_DECLARATION_DECLARATION ref a b;
        LexerParserBlocks.expression_VALUE ref a;
        LexerParserBlocks.expression_IDENTIFICATOR ref a;
        LexerParserBlocks.expression_UNARY_OPERATOR ref a b;
        LexerParserBlocks.expression_BINARY_OPERATOR ref a b c;
        LexerParserBlocks.expression_PARENTHESIS ref a;
        LexerParserBlocks.value_NUMBER_VALUE ref yytext;
        LexerParserBlocks.value_BOOLEAN_VALUE ref yytext;
        LexerParserBlocks.identificator_IDENTIFICATOR ref yytext;
        LexerParserBlocks.type_NUMBER_TYPE ref;
        LexerParserBlocks.type_BOOLEAN_TYPE ref]
     = List.repeat None 20.
Proof.
  unfold LexerParserBlocks.command_DECLARATION_COMMAND,
    LexerParserBlocks.command_COMMAND_COMMAND, LexerParserBlocks.union_of_blocks.
  split; [|split; [|reflexivity]].
  - intros [M|M]; rewrite M; [|destruct (LexerParserBlocks.block_of s1)];
      split; reflexivity.
  - intros b1 b3 B1 B3. rewrite B1, B3. split; reflexivity.
Qed.

(** X24: no declaration a grammar action builds elaborates, whatever its
    identifier, type and initialiser.  Both grammars build three
    children and [elaborate] takes the second for the initialiser: with
    the parser file with blocks that is the type node, and it throws
    [UNKNOWN_EXPRESSION]; with [lexer-parser.ts] it is the identifier
    node, which has no children, and where nothing is bound at
    [undefined] it throws [UNDEFINED_IDENTIFICATOR].  A variable has
    taken its symbol by then.  So the command a declaration scopes over
    is not run. *)
Theorem parsed_declarations_do_not_elaborate
  (fuel ref r : nat) (kind : TypeKind.t) (name : string) block
  (identificator type expression command1 : Node)
  (rho : Rho) (sigma : Sigma) (w : World) :
  let type_node := LexerParserBlocks.TypeNode r kind block in
  let let_blocks := LexerParserBlocks.declaration_LET ref identificator type_node expression in
  let const_blocks := LexerParserBlocks.declaration_CONST ref identificator type_node expression in
  let name_node := LexerParser.identificator_IDENTIFICATOR r name in
  let let_old := LexerParser.declaration_LET ref type name_node expression in
  let const_old := LexerParser.declaration_CONST ref type name_node expression in
  elaborate let_blocks rho sigma w
  = (Throw (DynamicError UNKNOWN_EXPRESSION), snd (newLocation w))
  /\ elaborate const_blocks rho sigma w = (Throw (DynamicError UNKNOWN_EXPRESSION), w)
  /\ execute (S fuel)
       (LexerParserBlocks.CommandNode ref [let_blocks; command1]
          CommandKind.DECLARATION_COMMAND block) rho sigma w
     = (Some (Throw (DynamicError UNKNOWN_EXPRESSION)), snd (newLocation w))
  /\ (rho undefined = None ->
      elaborate let_old rho sigma w
      = (Throw (StaticError UNDEFINED_IDENTIFICATOR), snd (newLocation w))
      /\ elaborate const_old rho sigma w
         = (Throw (StaticError UNDEFINED_IDENTIFICATOR), w)
      /\ execute (S fuel) (LexerParser.command_DECLARATION_COMMAND ref let_old command1)
                 rho sigma w
         = (Some (Throw (StaticError UNDEFINED_IDENTIFICATOR)), snd (newLocation w))).
Proof.
  cbv zeta.
  split; [destruct kind; reflexivity|].
  split; [destruct kind; reflexivity|].
  split; [destruct kind; reflexivity|].
  intros U.
  split; [|split]; cbn; unfold identificator_case; cbn; rewrite U; reflexivity.
Qed.

Lemma list_ascii_of_append (s1 s2 : string) :
  list_ascii_of_string (String.append s1 s2)
  = list_ascii_of_string s1 ++ list_ascii_of_string s2.
Proof.
  induction s1 as [|c s1 IH]; [reflexivity|]. cbn. rewrite IH. reflexivity.
Qed.

(** X25: [validate] accepts a text as soon as one of its characters is a
    letter or [_], wherever it stands: the pattern is not anchored.  So a
    text is accepted when a part of it is, the constructor rejects only a
    text without any such character, and then, called without a block as
    the grammar action calls it, it ends in a [TypeError] rather than in
    the lexical error. *)
Theorem validate_accepts_any_text_with_a_letter
  (ref : nat) (s1 s2 : string) (block : Block) :
  LexerParserBlocks.validate (String.append s1 s2)
  = LexerParserBlocks.validate s1 || LexerParserBlocks.validate s2
  /\ (LexerParserBlocks.validate s1 = true ->
      forall b, new_IdentificatorNode ref (String.append s2 s1) b
                = built (LexerParserBlocks.IdentificatorNode ref (String.append s2 s1) b))
  /\ (LexerParserBlocks.validate s1 = false ->
      new_IdentificatorNode ref s1 None = no_block_to_report
      /\ new_IdentificatorNode ref s1 (Some block)
         = lexical_error (firstLine block) (firstColumn block))
  /\ LexerParserBlocks.validate "" = false
  /\ LexerParserBlocks.validate "123" = false
  /\ LexerParserBlocks.validate "9x" = true
  /\ LexerParserBlocks.validate "a-b" = true.
Proof.
  assert (A : forall a b, LexerParserBlocks.validate (String.append a b)
                          = LexerParserBlocks.validate a || LexerParserBlocks.validate b).
  { intros a b. unfold LexerParserBlocks.validate.
    rewrite list_ascii_of_append. apply existsb_app. }
  split; [apply A|]. split; [|split; [|repeat split]].
  - intros V b. unfold new_IdentificatorNode.
    rewrite A, V, Bool.orb_true_r. reflexivity.
  - intros V. unfold new_IdentificatorNode. rewrite V. split; reflexivity.
Qed.

End Parser.

(** ** The further theorems at concrete inputs *)

Section MoreWitnesses.
Import Examples.
#[local] Existing Instance bare_host.

(** A world in which one symbol was made, the one [x] is at. *)
Definition world_1 : World := new_World 1 [] [].

Lemma closed_x : closed rho_x sigma_true.
Proof.
  intros key l. unfold rho_x, extend.
  destruct (JS.strict_eq key x); [|discriminate].
  intros R. injection R as <-. exists (boolean true). reflexivity.
Defined.

Lemma allocated_x : allocated sigma_true world_1.
Proof.
  intros l [value B]. destruct l as [|l]; [apply Nat.lt_0_1 | discriminate B].
Defined.

Lemma binary_operators_are_typed_witness :
  binary_switch (text "<=") (number seven) (number two) = Return (boolean false)
  /\ In "<=" relational_operators
  /\ typeof (number seven) = "number" /\ typeof (number two) = "number"
  /\ typeof (boolean false) = "boolean".
Proof.
  split; [reflexivity|].
  assert (I : In "<=" relational_operators) by (right; right; left; reflexivity).
  split; [exact I|].
  exact (proj1 (proj2 (binary_operators_are_typed "<=" (number seven) (number two)
                         (boolean false) eq_refl)) I).
Defined.

Lemma both_operands_are_evaluated_first_witness :
  let an_a := LexerParserBlocks.expression_IDENTIFICATOR 42 a in
  let conjunction left right :=
    LexerParserBlocks.expression_BINARY_OPERATOR 44 left (text "&&") right in
  evaluate literal_false RHO_0 SIGMA_0 = Return (boolean false)
  /\ evaluate an_a RHO_0 SIGMA_0 = Throw (StaticError UNDEFINED_IDENTIFICATOR)
  /\ evaluate (conjunction literal_false an_a) RHO_0 SIGMA_0
     = Throw (StaticError UNDEFINED_IDENTIFICATOR)
  /\ evaluate (conjunction an_a literal_false) RHO_0 SIGMA_0
     = Throw (StaticError UNDEFINED_IDENTIFICATOR).
Proof.
  intros an_a conjunction.
  split; [reflexivity|]. split; [reflexivity|]. split.
  - apply (proj2 (both_operands_are_evaluated_first 44 None [] literal_false
                    (text "&&") an_a [] RHO_0 SIGMA_0) (boolean false)); reflexivity.
  - apply (proj1 (both_operands_are_evaluated_first 44 None [] an_a
                    (text "&&") literal_false [] RHO_0 SIGMA_0)); reflexivity.
Defined.

Lemma evaluate_unary_not_and_plus_witness :
  let unary operator operand :=
    LexerParserBlocks.expression_UNARY_OPERATOR 60 (text operator) operand in
  let an_a := LexerParserBlocks.expression_IDENTIFICATOR 42 a in
  (evaluate literal_false RHO_0 SIGMA_0 = Return (boolean false)
   /\ evaluate (unary "!" literal_false) RHO_0 SIGMA_0 = Return (boolean true)
   /\ evaluate (unary "!" (unary "!" literal_false)) RHO_0 SIGMA_0
      = Return (boolean false))
  /\ (evaluate an_a rho_7_2 SIGMA_0 = Return (number seven)
      /\ evaluate (unary "+" an_a) rho_7_2 SIGMA_0 = Return (number seven)
      /\ evaluate (unary "!" an_a) rho_7_2 SIGMA_0 = Throw (StaticError WRONG_TYPE)).
Proof.
  intros unary an_a. split.
  - destruct (proj1 (evaluate_unary_not_and_plus 60 60 None None [] []
                       literal_false [] [] RHO_0 SIGMA_0) false eq_refl)
      as (N & _ & NN).
    split; [reflexivity|]. split; [exact N | exact NN].
  - destruct (proj2 (evaluate_unary_not_and_plus 60 60 None None [] []
                       an_a [] [] rho_7_2 SIGMA_0) seven eq_refl)
      as (P & N).
    split; [reflexivity|]. split; [exact P | exact N].
Defined.

Lemma declarations_take_new_cells_witness :
  let rho1 : Rho := extend rho_x x (inl 1%nat) in
  let sigma1 : Sigma := extend sigma_true 1%nat (boolean true) in
  elaborate for_declaration rho_x sigma_true world_1
  = (Return (rho1, sigma1), new_World 2 [] [])
  /\ sigma1 0%nat = sigma_true 0%nat
  /\ closed rho1 sigma1
  /\ allocated sigma1 (new_World 2 [] []).
Proof.
  intros rho1 sigma1.
  destruct (declarations_take_new_cells for_declaration rho_x rho1 sigma_true sigma1
              world_1 (new_World 2 [] []) closed_x allocated_x eq_refl)
    as (_ & K & C & A).
  split; [reflexivity|]. split; [|split; assumption].
  apply (K x). reflexivity.
Defined.

Lemma execute_keeps_every_location_bound_witness :
  let sigma_false : Sigma := extend sigma_true 0%nat (boolean false) in
  execute 2 while_x rho_x sigma_true world_1 = (Some (Return sigma_false), world_1)
  /\ grows sigma_true sigma_false
  /\ closed rho_x sigma_false
  /\ allocated sigma_false world_1.
Proof.
  intros sigma_false. split; [reflexivity|].
  exact (execute_keeps_every_location_bound 2 while_x rho_x sigma_true sigma_false
           world_1 world_1 closed_x allocated_x eq_refl).
Defined.



Lemma assignment_is_read_back_witness :
  rho_x x = Some (inl 0%nat)
  /\ evaluate literal_false rho_x sigma_true = Return (boolean false)
  /\ exists sigma',
      execute 1 x_becomes_false rho_x sigma_true WORLD_0
      = (Some (Return sigma'), WORLD_0)
      /\ evaluate (LexerParserBlocks.expression_IDENTIFICATOR 50 x) rho_x sigma'
         = Return (boolean false).
Proof.
  split; [reflexivity|]. split; [reflexivity|].
  destruct (assignment_is_read_back 0 51 50 None None [] [] x literal_false []
              rho_x sigma_true WORLD_0 0%nat (boolean false) eq_refl eq_refl)
    as (sigma' & E & R & _).
  exists sigma'. split; [exact E | exact R].
Defined.

Lemma inner_declaration_shadows_witness :
  let read := LexerParserBlocks.expression_IDENTIFICATOR 80 x in
  let print := LexerParserBlocks.CommandNode 80 [read] CommandKind.PRINT None in
  let scoped kind :=
    LexerParserBlocks.CommandNode 80
      [LexerParserBlocks.CommandNode 80
         [LexerParserBlocks.DeclarationNode 80 [x; literal_false] kind None; print]
         CommandKind.DECLARATION_COMMAND None;
       print] CommandKind.COMMAND_COMMAND None in
  evaluate read rho_x sigma_true = Return (boolean true)
  /\ evaluate literal_false rho_x sigma_true = Return (boolean false)
  /\ console_log (snd (execute 3 (scoped DeclarationKind.CONSTANT)
                               rho_x sigma_true world_1))
     = [boolean false; boolean true]
  /\ console_log (snd (execute 3 (scoped DeclarationKind.VARIABLE)
                               rho_x sigma_true world_1))
     = [boolean false; boolean true].
Proof.
  intros read print scoped.
  destruct (inner_declaration_shadows_and_leaving_restores 0 80 None [] x
              literal_false (boolean true) (boolean false) rho_x sigma_true world_1
              closed_x allocated_x eq_refl eq_refl) as [C V].
  split; [reflexivity|]. split; [reflexivity|]. split.
  - subst scoped print read.
    change (execute 3) with (execute (3 + 0)).
    unfold LexerParserBlocks.CommandNode, LexerParserBlocks.DeclarationNode,
      LexerParserBlocks.expression_IDENTIFICATOR, LexerParserBlocks.ExpressionNode.
    rewrite C. reflexivity.
  - subst scoped print read.
    change (execute 3) with (execute (3 + 0)).
    unfold LexerParserBlocks.CommandNode, LexerParserBlocks.DeclarationNode,
      LexerParserBlocks.expression_IDENTIFICATOR, LexerParserBlocks.ExpressionNode.
    rewrite V. reflexivity.
Defined.

Lemma run_of_a_copy_witness :
  let f := fun r => (r + 100)%nat in
  let g := fun _ : nat => @None Block in
  (forall r r', f r = f r' -> r = r')
  /\ run 5 (Specification.relabel f g increment_shared) = run 5 increment_shared
  /\ console_log (snd (run 5 increment_shared)) = [number JS.NaN].
Proof.
  intros f g.
  assert (injective : forall r r', f r = f r' -> r = r')
    by (intros r r' E; apply (Nat.add_cancel_r r r' 100), E).
  split; [exact injective|]. split; [|reflexivity].
  exact (run_of_a_copy f g 5 increment_shared injective).
Defined.

Lemma other_kinds_are_unknown_witness :
  let empty_declaration := LexerParser.declaration_NIL 90 in
  let empty_command := LexerParser.single_command_NIL 91 in
  execute 1 empty_declaration RHO_0 SIGMA_0 WORLD_0
  = (Some (Throw (DynamicError UNKNOWN_COMMAND)), WORLD_0)
  /\ evaluate empty_command RHO_0 SIGMA_0 = Throw (DynamicError UNKNOWN_EXPRESSION)
  /\ elaborate empty_command RHO_0 SIGMA_0 WORLD_0
     = (Throw (StaticError UNKNOWN_DECLARATION), WORLD_0).
Proof.
  intros empty_declaration empty_command.
  destruct (other_kinds_are_unknown 0 90 (Some (Declaration DeclarationKind.NIL)) []
              None [] "" RHO_0 SIGMA_0 WORLD_0) as (X & _).
  destruct (other_kinds_are_unknown 0 91 (Some (Command CommandKind.NIL)) []
              None [] "" RHO_0 SIGMA_0 WORLD_0) as (_ & V & L & _).
  split; [|split].
  - apply X. intros k E. discriminate E.
  - apply V. intros k E. discriminate E.
  - apply L. intros k E. discriminate E.
Defined.

Lemma parsed_declarations_do_not_elaborate_witness :
  RHO_0 undefined = None
  /\ fst (elaborate (LexerParser.declaration_LET 4
                       (LexerParser.type_NUMBER_TYPE 0)
                       (LexerParser.identificator_IDENTIFICATOR 1 "x")
                       old_literal_5) RHO_0 SIGMA_0 WORLD_0)
     = Throw (StaticError UNDEFINED_IDENTIFICATOR)
  /\ fst (elaborate new_declaration RHO_0 SIGMA_0 WORLD_0)
     = Throw (DynamicError UNKNOWN_EXPRESSION).
Proof.
  destruct (parsed_declarations_do_not_elaborate 0 4 1 TypeKind.NUMBER "x" None
              (LexerParserBlocks.identificator_IDENTIFICATOR 0 "x")
              (LexerParser.type_NUMBER_TYPE 0)
              (LexerParserBlocks.expression_VALUE 3
                 (LexerParserBlocks.value_NUMBER_VALUE 2 "5"))
              undefined RHO_0 SIGMA_0 WORLD_0) as (B & _ & _ & _).
  destruct (parsed_declarations_do_not_elaborate 0 4 1 TypeKind.NUMBER "x" None
              undefined (LexerParser.type_NUMBER_TYPE 0) old_literal_5
              undefined RHO_0 SIGMA_0 WORLD_0) as (_ & _ & _ & O).
  destruct (O eq_refl) as (L & _).
  split; [reflexivity|]. split.
  - cbv zeta in L. rewrite L. reflexivity.
  - cbv zeta in B. unfold new_declaration, LexerParserBlocks.type_NUMBER_TYPE.
    rewrite B. reflexivity.
Defined.

Lemma sequencing_actions_need_both_blocks_witness :
  let left := LexerParserBlocks.CommandNode 1 [] CommandKind.NIL
                (Some (new_Block 1 1 0 5)) in
  let right := LexerParserBlocks.CommandNode 2 [] CommandKind.NIL
                 (Some (new_Block 2 3 0 7)) in
  LexerParserBlocks.block_of new_assignment = None
  /\ LexerParserBlocks.command_COMMAND_COMMAND 16 new_assignment new_print
     = Throw TypeError
  /\ LexerParserBlocks.command_COMMAND_COMMAND 3 left right
     = Return (LexerParserBlocks.CommandNode 3 [left; right]
                 CommandKind.COMMAND_COMMAND (Some (new_Block 1 3 0 7))).
Proof.
  intros left right.
  split; [reflexivity|]. split.
  - exact (proj2 (proj1 (sequencing_actions_need_both_blocks 16 0 new_assignment
                           new_print undefined undefined undefined "")
                    (or_introl eq_refl))).
  - exact (proj2 (proj1 (proj2 (sequencing_actions_need_both_blocks 3 0 left right
                                  undefined undefined undefined ""))
                    (new_Block 1 1 0 5) (new_Block 2 3 0 7) eq_refl eq_refl)).
Defined.

Lemma validate_witness :
  LexerParserBlocks.validate "x" = true
  /\ new_IdentificatorNode 1 "9x" None
     = built (LexerParserBlocks.IdentificatorNode 1 "9x" None)
  /\ LexerParserBlocks.validate "42" = false
  /\ new_IdentificatorNode 1 "42" None = no_block_to_report
  /\ new_IdentificatorNode 1 "42" (Some (new_Block 3 3 8 10)) = lexical_error 3 8.
Proof.
  destruct (validate_accepts_any_text_with_a_letter 1 "x" "9" (new_Block 3 3 8 10))
    as (_ & A & _).
  destruct (validate_accepts_any_text_with_a_letter 1 "42" "" (new_Block 3 3 8 10))
    as (_ & _ & R & _).
  split; [reflexivity|]. split; [exact (A eq_refl None)|].
  split; [reflexivity|]. exact (R eq_refl).
Defined.

End MoreWitnesses.

(** ** Conditions, and the two switches without a default *)

Section Edges.
Context `{host : JS.Host}.

(** X26: [IF], [IF_ELSE] and [WHILE] want a boolean condition.  When the
    condition evaluates to a number each throws [WRONG_TYPE], when it
    throws each throws the same; in both cases no branch or body is
    looked at, the store is not returned and the world is as it was. *)
Theorem a_condition_must_be_boolean (fuel ref : nat) block own
  (kind : CommandKind.t) (condition : Node) (rest : list Node)
  (rho : Rho) (sigma : Sigma) (w : World) :
  let command := object ref (Some (Command kind)) (condition :: rest) block own in
  In kind [CommandKind.IF_; CommandKind.IF_ELSE; CommandKind.WHILE] ->
  (forall x, evaluate condition rho sigma = Return (number x) ->
     execute (S fuel) command rho sigma w = (Some (Throw (StaticError WRONG_TYPE)), w))
  /\ (forall e, evaluate condition rho sigma = Throw e ->
     execute (S fuel) command rho sigma w = (Some (Throw e), w)).
Proof.
  intros command K. subst command.
  one_of K; split; intros v E; cbn [execute index nth]; rewrite E; reflexivity.
Qed.

Lemma unary_switch_other (s : string) (value : Value) :
  existsb (String.eqb s) ["!"; "+"; "-"] = false ->
  unary_switch (text s) value = None.
Proof.
  unfold unary_switch.
  split_text; cbn; intros E; try reflexivity; discriminate E.
Qed.

(** X27: the two inner switches have no default and fall into the next
    case.  A [VALUE] node whose child is a text, or an object of a kind
    that is no value kind, is evaluated as an [IDENTIFICATOR] node over
    the same children.  A [UNARY_OPERATOR] node whose operator is a text
    other than [!], [+] and [-], once its operand has returned, is
    evaluated as a [BINARY_OPERATOR] node over the same children, whose
    left operand is then the operator text: it throws
    [UNKNOWN_EXPRESSION], not [UNKNOWN_OPERATOR]. *)
Theorem switches_without_default_fall_through (ref : nat) block own
  (child operand : Node) (s : string) (rest : list Node) (value : Value)
  (rho : Rho) (sigma : Sigma) :
  let node kind children := object ref (Some (Expression kind)) children block own in
  ((forall r k cs b o, child <> object r (Some (ValueK k)) cs b o) ->
   child <> undefined ->
   evaluate (node ExpressionKind.VALUE (child :: rest)) rho sigma
   = evaluate (node ExpressionKind.IDENTIFICATOR (child :: rest)) rho sigma)
  /\ (existsb (String.eqb s) ["!"; "+"; "-"] = false ->
      evaluate operand rho sigma = Return value ->
      evaluate (node ExpressionKind.UNARY_OPERATOR (text s :: operand :: rest)) rho sigma
      = evaluate (node ExpressionKind.BINARY_OPERATOR (text s :: operand :: rest)) rho sigma
      /\ evaluate (node ExpressionKind.UNARY_OPERATOR (text s :: operand :: rest)) rho sigma
         = Throw (DynamicError UNKNOWN_EXPRESSION)).
Proof.
  intros node. subst node. split.
  - intros V U. cbn [evaluate index nth].
    destruct child as [|t|r [[| | |k| |]|] cs b o]; try reflexivity.
    + contradiction U; reflexivity.
    + exfalso. exact (V r k cs b o eq_refl).
  - intros O E.
    assert (F : evaluate (object ref (Some (Expression ExpressionKind.UNARY_OPERATOR))
                                 (text s :: operand :: rest) block own) rho sigma
                = evaluate (object ref (Some (Expression ExpressionKind.BINARY_OPERATOR))
                                   (text s :: operand :: rest) block own) rho sigma).
    { cbn [evaluate index nth]. rewrite E. cbn [bind].
      rewrite (unary_switch_other s value O). reflexivity. }
    split; [exact F|]. rewrite F. reflexivity.
Qed.

End Edges.

Section EdgeWitnesses.
Import Examples.
#[local] Existing Instance bare_host.

Lemma a_condition_must_be_boolean_witness :
  let an_a := LexerParserBlocks.expression_IDENTIFICATOR 42 a in
  In CommandKind.IF_ELSE [CommandKind.IF_; CommandKind.IF_ELSE; CommandKind.WHILE]
  /\ evaluate literal_5 RHO_0 SIGMA_0 = Return (number JS.NaN)
  /\ execute 1 (LexerParserBlocks.single_command_IF_ELSE 1 literal_5 undefined undefined)
             RHO_0 SIGMA_0 WORLD_0
     = (Some (Throw (StaticError WRONG_TYPE)), WORLD_0)
  /\ evaluate an_a RHO_0 SIGMA_0 = Throw (StaticError UNDEFINED_IDENTIFICATOR)
  /\ execute 1 (LexerParserBlocks.single_command_IF_ELSE 1 an_a undefined undefined)
             RHO_0 SIGMA_0 WORLD_0
     = (Some (Throw (StaticError UNDEFINED_IDENTIFICATOR)), WORLD_0).
Proof.
  intros an_a.
  assert (K : In CommandKind.IF_ELSE
                 [CommandKind.IF_; CommandKind.IF_ELSE; CommandKind.WHILE])
    by (right; left; reflexivity).
  assert (E : evaluate literal_5 RHO_0 SIGMA_0 = Return (number JS.NaN))
    by reflexivity.
  split; [exact K|]. split; [exact E|]. split; [|split; [reflexivity|]].
  - exact (proj1 (a_condition_must_be_boolean 0 1 None [] CommandKind.IF_ELSE
                    literal_5 [undefined; undefined] RHO_0 SIGMA_0 WORLD_0 K)
             JS.NaN E).
  - exact (proj2 (a_condition_must_be_boolean 0 1 None [] CommandKind.IF_ELSE
                    an_a [undefined; undefined] RHO_0 SIGMA_0 WORLD_0 K)
             (StaticError UNDEFINED_IDENTIFICATOR) eq_refl).
Defined.

Lemma switches_without_default_witness :
  existsb (String.eqb "~") ["!"; "+"; "-"] = false
  /\ evaluate literal_false RHO_0 SIGMA_0 = Return (boolean false)
  /\ evaluate (LexerParserBlocks.expression_UNARY_OPERATOR 1 (text "~") literal_false)
              RHO_0 SIGMA_0
     = Throw (DynamicError UNKNOWN_EXPRESSION)
  /\ evaluate (LexerParserBlocks.expression_VALUE 2 x) rho_x sigma_true
     = evaluate (LexerParserBlocks.expression_IDENTIFICATOR 2 x) rho_x sigma_true.
Proof.
  destruct (switches_without_default_fall_through 1 None [] undefined literal_false
              "~" [] (boolean false) RHO_0 SIGMA_0) as [_ U].
  destruct (switches_without_default_fall_through 2 None [] x undefined
              "" [] (boolean false) rho_x sigma_true) as [V _].
  split; [reflexivity|]. split; [reflexivity|].
  split; [exact (proj2 (U eq_refl eq_refl))|].
  apply V; intros; discriminate.
Defined.

End EdgeWitnesses.
